(** * FAO-56 irrigation auditor: a shallow embedding and its properties

    The development embeds the two scripts of the repository,
    [irrigation_engine.py] (a one-shot report) and [irrigation_app.py]
    (the dashboard with the retrying weather client), and proves the
    properties of the water-balance pipeline.

    Numbers.  A Python/NumPy float is a [pyfloat]: a finite value, given
    by the rational it denotes, or one of [PosInf], [NegInf] and [NaN].
    Every arithmetic operation computes the exact result and rounds it to
    binary64, to nearest with ties to even, with gradual underflow and with
    overflow to an infinity ([round64]); the special values follow IEEE-754.
    The sign of a zero is not kept: nothing in the two scripts depends on
    it.

    Effects.  The network is an oracle answering the successive calls of
    [requests.get]; sleeping and everything written to the page are recorded
    in a trace of [effect]s; exceptions are values of [result]. *)

From Stdlib Require Import List ZArith QArith Qround Qminmax Qpower Qreduction.
From Stdlib Require Import String Bool Lia Lqa.
Import ListNotations.

Local Open Scope Q_scope.

(* ------------------------------------------------------------------ *)
(** ** Rounding to binary64 *)

Module Binary64.

Definition pow2 (e : Z) : Q := Qpower 2 e.

(** The binade of a positive rational [x]: the [e] with
    [2^e <= x < 2^(e+1)]. *)
Definition binade (x : Q) : Z :=
  let k := (Z.log2 (Qnum x) - Z.log2 (Zpos (Qden x)))%Z in
  if Qle_bool (pow2 k) x then k else (k - 1)%Z.

(** The nearest integer, ties to even. *)
Definition rne (y : Q) : Z :=
  let f := Qfloor y in
  match Qcompare (y - inject_Z f) (1 # 2) with
  | Lt => f
  | Gt => (f + 1)%Z
  | Eq => if Z.even f then f else (f + 1)%Z
  end.

(** The exponent of the unit in the last place: 53 bits of precision, and
    no exponent below that of the subnormal numbers. *)
Definition ulp_exponent (x : Q) : Z := (Z.max (binade x) (-1022) - 52)%Z.

Definition grid_pos (x : Q) : Q :=
  let c := ulp_exponent x in
  inject_Z (rne (x * pow2 (- c))) * pow2 c.

(** The nearest multiple of the unit in the last place. *)
Definition grid64 (x : Q) : Q :=
  match Qnum x with
  | Z0 => 0
  | Zpos _ => grid_pos x
  | Zneg _ => - grid_pos (- x)
  end.

(** Half-way between the largest finite number and [2^1024]: from here on
    rounding overflows. *)
Definition OVERFLOW : Q := inject_Z (2 ^ 1024 - 2 ^ 970).

(** The largest finite number. *)
Definition MAX_FLOAT : Q := inject_Z ((2 ^ 53 - 1) * 2 ^ 971).

End Binary64.

(* ------------------------------------------------------------------ *)
(** ** Floats *)

Module PyFloat.

Inductive pyfloat : Type :=
| Fin (q : Q)
| PosInf
| NegInf
| NaN.

(** The binary64 number nearest to [q]. *)
Definition round64 (q : Q) : pyfloat :=
  let x := Qred q in
  if Qle_bool Binary64.OVERFLOW x then PosInf
  else if Qle_bool x (- Binary64.OVERFLOW) then NegInf
  else Fin (Qred (Binary64.grid64 x)).

(** [float(x)] of a number that is a float already or is within the range
    of the floats, and the float nearest to an integer. *)
Definition py_float (q : Q) : pyfloat := round64 q.

Definition of_int (z : Z) : pyfloat := round64 (inject_Z z).

(** Missing values: pandas' [isna] on a float column. *)
Definition isna (x : pyfloat) : bool :=
  match x with NaN => true | _ => false end.

Definition fopp (x : pyfloat) : pyfloat :=
  match x with
  | Fin a => Fin (- a)
  | PosInf => NegInf
  | NegInf => PosInf
  | NaN => NaN
  end.

(** The infinity whose sign is the sign of [a]; [0 * inf] is NaN. *)
Definition inf_signed (a : Q) (pos : bool) : pyfloat :=
  match a ?= 0 with
  | Eq => NaN
  | Gt => if pos then PosInf else NegInf
  | Lt => if pos then NegInf else PosInf
  end.

Definition fadd (x y : pyfloat) : pyfloat :=
  match x, y with
  | NaN, _ | _, NaN => NaN
  | Fin a, Fin b => round64 (a + b)
  | PosInf, NegInf | NegInf, PosInf => NaN
  | PosInf, _ | _, PosInf => PosInf
  | NegInf, _ | _, NegInf => NegInf
  end.

Definition fsub (x y : pyfloat) : pyfloat := fadd x (fopp y).

Definition fmul (x y : pyfloat) : pyfloat :=
  match x, y with
  | NaN, _ | _, NaN => NaN
  | Fin a, Fin b => round64 (a * b)
  | Fin a, PosInf | PosInf, Fin a => inf_signed a true
  | Fin a, NegInf | NegInf, Fin a => inf_signed a false
  | PosInf, PosInf | NegInf, NegInf => PosInf
  | PosInf, NegInf | NegInf, PosInf => NegInf
  end.

(** NumPy true division: a zero divisor gives an infinity or NaN, never an
    exception. *)
Definition fdiv (x y : pyfloat) : pyfloat :=
  match x, y with
  | NaN, _ | _, NaN => NaN
  | Fin a, Fin b =>
      match b ?= 0 with
      | Eq => inf_signed a true
      | _ => round64 (a / b)
      end
  | Fin _, _ => Fin 0
  | PosInf, Fin b => if Qle_bool 0 b then PosInf else NegInf
  | NegInf, Fin b => if Qle_bool 0 b then NegInf else PosInf
  | _, _ => NaN
  end.

(** [x == y] on two floats. *)
Definition feqb (x y : pyfloat) : bool :=
  match x, y with
  | Fin a, Fin b => Qeq_bool a b
  | PosInf, PosInf | NegInf, NegInf => true
  | _, _ => false
  end.

(** [x > 0] and [x <= y] as Python evaluates them: false on NaN. *)
Definition fgt0 (x : pyfloat) : bool :=
  match x with
  | Fin a => negb (Qle_bool a 0)
  | PosInf => true
  | _ => false
  end.

Definition fle (x y : pyfloat) : Prop :=
  match x, y with
  | NaN, _ | _, NaN => False
  | NegInf, _ | _, PosInf => True
  | Fin a, Fin b => a <= b
  | _, _ => False
  end.

(** [Series.clip(lower=lo)]: values below [lo] become [lo]; NaN stays. *)
Definition clip_lower (lo : Q) (x : pyfloat) : pyfloat :=
  match x with
  | Fin a => if Qlt_le_dec a lo then Fin lo else Fin a
  | PosInf => PosInf
  | NegInf => Fin lo
  | NaN => NaN
  end.

(** [fillna(d)]. *)
Definition fillna1 (d : Q) (x : pyfloat) : pyfloat :=
  if isna x then Fin d else x.

End PyFloat.
Export PyFloat.

Arguments round64 : simpl never.
Arguments py_float : simpl never.
Arguments of_int : simpl never.

(* ------------------------------------------------------------------ *)
(** ** Exceptions *)

Inductive request_error : Type :=
| ReadTimeout
| ConnectionError
| HTTPError (status_code : Z)
| JSONDecodeError.

Inductive exn : Type :=
| RequestException (e : request_error)
| KeyError (key : string)
| ValueError (msg : string)
| OverflowError (msg : string)
| IndexError (msg : string).

Inductive result (A : Type) : Type :=
| Ok (a : A)
| Raise (e : exn).
Arguments Ok {A} a.
Arguments Raise {A} e.

Definition rbind {A B} (r : result A) (k : A -> result B) : result B :=
  match r with Ok a => k a | Raise e => Raise e end.

Notation "x <~ r ;; k" := (rbind r (fun x => k))
  (at level 61, r at next level, right associativity).

(** [int(x)] on a float: truncation toward zero; infinities and NaN raise. *)
Definition trunc (q : Q) : Z := Z.quot (Qnum q) (Zpos (Qden q)).

Definition py_int (x : pyfloat) : result Z :=
  match x with
  | Fin q => Ok (trunc q)
  | PosInf | NegInf =>
      Raise (OverflowError "cannot convert float infinity to integer")
  | NaN => Raise (ValueError "cannot convert float NaN to integer")
  end.

(** An [int] operand of a float operation becomes the nearest float; an
    int beyond the range of the floats raises. *)
Definition float_of_int (z : Z) : result pyfloat :=
  match of_int z with
  | Fin q => Ok (Fin q)
  | _ => Raise (OverflowError "int too large to convert to float")
  end.

(** [x % 1] on a float.  The remainder of the truncated division is exact
    and has the sign of [x]; when it is negative the divisor is added to
    it, and that sum is rounded. *)
Definition fmod1 (x : pyfloat) : pyfloat :=
  match x with
  | Fin q =>
      let r := Qred (q - inject_Z (trunc q)) in
      if Qlt_le_dec r 0 then fadd (Fin r) (Fin 1) else Fin r
  | _ => NaN
  end.

(* ------------------------------------------------------------------ *)
(** ** Series: the column operations of pandas that the scripts use *)

Module Series.

Definition Series := list pyfloat.

(** [s * k] for a float scalar [k]. *)
Definition mul_scalar (s : Series) (k : pyfloat) : Series :=
  map (fun x => fmul x k) s.

(** [a - b] on two columns of one frame (same index). *)
Fixpoint sub (a b : Series) : Series :=
  match a, b with
  | x :: a', y :: b' => fsub x y :: sub a' b'
  | _, _ => []
  end.

Definition clip (lo : Q) (s : Series) : Series := map (clip_lower lo) s.

(** [s / d] for a Python [int] divisor. *)
Definition div_int (s : Series) (d : Z) : result Series :=
  divisor <~ float_of_int d ;; Ok (map (fun x => fdiv x divisor) s).

Definition fillna (d : Q) (s : Series) : Series := map (fillna1 d) s.

(** The numbers of a JSON array of [float | null] as a float column
    ([pd.to_numeric(..., errors='coerce')]): a number becomes the nearest
    float, what is not a number becomes NaN. *)
Definition to_numeric (raw : list (option Q)) : Series :=
  map (fun o => match o with Some q => py_float q | None => NaN end) raw.

(** Distance to, and value of, the first valid entry of [l]. *)
Fixpoint first_valid (l : Series) : option (nat * pyfloat) :=
  match l with
  | [] => None
  | x :: t =>
      if isna x then
        match first_valid t with
        | Some (d, v) => Some (S d, v)
        | None => None
        end
      else Some (O, x)
  end.

(** A position of the index as a float; the positions of a frame are far
    below 2^53, where every integer is a float. *)
Definition of_nat (n : nat) : pyfloat := Fin (inject_Z (Z.of_nat n)).

(** [np.interp] between the valid points [(0, a)] and [(gap, b)] at
    position [d]: [slope * (x - xp) + fp]; when that is NaN the same from
    the right end; when that is NaN too and the ends are equal, their
    value. *)
Definition np_interp (a b : pyfloat) (d gap : nat) : pyfloat :=
  let slope := fdiv (fsub b a) (of_nat gap) in
  let left := fadd (fmul slope (of_nat d)) a in
  if isna left then
    let right := fadd (fmul slope (fopp (of_nat (gap - d)))) b in
    if isna right && feqb a b then a else right
  else left.

(** [Series.interpolate()] with its defaults (method 'linear', which takes
    the rows as equally spaced, and limit_direction 'forward'): a NaN
    between two valid values is interpolated; NaNs after the last valid
    value take that value ([np.interp] clamps on the right); NaNs before the
    first valid value are preserved.  [prev] is the distance back to the
    last valid value, and that value. *)
Fixpoint interp_after (prev : option (nat * pyfloat)) (l : Series) : Series :=
  match l with
  | [] => []
  | x :: t =>
      if isna x then
        match prev with
        | None => NaN :: interp_after None t
        | Some (dl, a) =>
            match first_valid t with
            | None => a
            | Some (dr, b) => np_interp a b dl (dl + S dr)
            end :: interp_after (Some (S dl, a)) t
        end
      else x :: interp_after (Some (1%nat, x)) t
  end.

Definition interpolate (s : Series) : Series := interp_after None s.

End Series.

(* ------------------------------------------------------------------ *)
(** ** irrigation_engine.py *)

Module Engine.

(** [CROPS[CURRENT_CROP]["kc"]] with [CURRENT_CROP = "Maize"]: the float
    1.1. *)
Definition kc_value : Q := 2476979795053773 # 2251799813685248.

(** Lines 52-58: the two derived columns of the report; [kc] is a float. *)
Definition Crop_Need (kc : Q) (ETo : Series.Series) : Series.Series :=
  Series.mul_scalar ETo (Fin kc).

Definition Irrigation_Needed (kc : Q) (ETo Rain : Series.Series) : Series.Series :=
  Series.clip 0 (Series.sub (Crop_Need kc ETo) Rain).

End Engine.

(* ------------------------------------------------------------------ *)
(** ** irrigation_app.py *)

Module App.

Import Series.

(** *** Effects *)

Inductive status : Type := ADEQUATE | WATER_STRESS.

Inductive delta : Type := Deficit | Balanced.

Inductive effect : Type :=
| HttpGet (attempt : nat)              (* requests.get(url, timeout=10) *)
| Sleep (seconds : Z)                  (* time.sleep *)
| StErrorBusy                          (* "Weather Satellite is busy ..." *)
| MetricRain (v : pyfloat)
| MetricCropThirst (v : pyfloat)
| MetricIrrigation (v : pyfloat) (d : delta)
| MetricPumpRuntime (hrs mins : Z)
| Chart (today : string)
| StatusWaterStress (hrs mins liters : Z)   (* st.error "Status: WATER STRESS" *)
| StatusAdequate                            (* st.success "Status: ADEQUATE." *)
| DataTable
| StErrorCalc (e : exn)                (* "Calculation Error: ..." *)
| Divider.

(** A computation writes a trace and returns or raises. *)
Definition prog (A : Type) : Type := (list effect * result A)%type.

Definition ret {A} (a : A) : prog A := ([], Ok a).
Definition raise {A} (e : exn) : prog A := ([], Raise e).
Definition lift {A} (r : result A) : prog A := ([], r).
Definition emit (e : effect) : prog unit := ([e], Ok tt).

Definition bind {A B} (m : prog A) (k : A -> prog B) : prog B :=
  match m with
  | (t, Ok a) => let (t', r) := k a in (t ++ t', r)
  | (t, Raise e) => (t, Raise e)
  end.

Notation "x <- m ;; k" := (bind m (fun x => k))
  (at level 61, m at next level, right associativity).
Notation "m ;;; k" := (bind m (fun _ => k))
  (at level 61, right associativity).

(** *** The weather client *)

(** An entry of the [time] array: a string that [pd.to_datetime] parses,
    or one that it refuses.  Entries that are not strings are outside the
    model. *)
Inductive time_entry : Type :=
| Parseable (day : string)
| Unparseable (text : string).

(** The [daily] object of the provider's answer; an absent key is [None],
    an array element that is [null] is [None].  The numbers are those
    written in the body: one beyond the range of the floats reads as an
    infinity, as [json] reads 1e999. *)
Record daily_json : Type := {
  j_time : option (list time_entry);
  j_et0_fao_evapotranspiration : option (list (option Q));
  j_precipitation_sum : option (list (option Q))
}.

(** The body of a response: not JSON at all, or a JSON object whose
    [daily] key may be absent. *)
Inductive response_body : Type :=
| NotJson
| Json (daily : option daily_json).

(** What one call of [requests.get] does: it raises (no answer within the
    timeout, no connection), or it returns a response with a status code
    and a body. *)
Inductive net_reply : Type :=
| GetRaises (e : request_error)
| Response (status_code : Z) (body : response_body).

Record DataFrame : Type := {
  Date : list string;
  ETo : Series;
  Rain : Series
}.

(** [pd.DataFrame()]. *)
Definition empty_frame : DataFrame := {| Date := []; ETo := []; Rain := [] |}.

(** [df.empty]: no rows. *)
Definition empty (df : DataFrame) : bool :=
  match Date df with [] => true | _ => false end.

(** [response.raise_for_status()]. *)
Definition raise_for_status (status_code : Z) : result unit :=
  if ((400 <=? status_code) && (status_code <? 600))%Z
  then Raise (RequestException (HTTPError status_code))
  else Ok tt.

(** [response.json()]: a body that is not JSON raises the JSONDecodeError
    of requests, which is a request exception. *)
Definition json (body : response_body) : result (option daily_json) :=
  match body with
  | NotJson => Raise (RequestException JSONDecodeError)
  | Json data => Ok data
  end.

(** [d[key]] on a JSON object. *)
Definition getitem {A} (key : string) (o : option A) : result A :=
  match o with
  | Some a => Ok a
  | None => Raise (KeyError key)
  end.

(** Line 106: [pd.to_datetime] on the column of dates. *)
Fixpoint to_datetime (time : list time_entry) : result (list string) :=
  match time with
  | [] => Ok []
  | Parseable day :: rest => days <~ to_datetime rest ;; Ok (day :: days)
  | Unparseable text :: _ =>
      Raise (ValueError "Unknown datetime string format")
  end.

Definition ETO_DEFAULT : Q := 35 # 10.

(** Lines 108-110. *)
Definition clean_eto (raw : list (option Q)) : Series :=
  fillna ETO_DEFAULT (interpolate (to_numeric raw)).

Definition clean_rain (raw : list (option Q)) : Series :=
  fillna 0 (to_numeric raw).

(** Lines 99-112: the frame of a parsed body.  The constructor of
    [pd.DataFrame] raises when the arrays differ in length. *)
Definition build_frame (data : option daily_json) : result DataFrame :=
  daily <~ getitem "daily" data ;;
  time <~ getitem "time" (j_time daily) ;;
  et0 <~ getitem "et0_fao_evapotranspiration" (j_et0_fao_evapotranspiration daily) ;;
  rain <~ getitem "precipitation_sum" (j_precipitation_sum daily) ;;
  if ((List.length time =? List.length et0) && (List.length time =? List.length rain))%nat
  then
    days <~ to_datetime time ;;
    Ok {| Date := days; ETo := clean_eto et0; Rain := clean_rain rain |}
  else Raise (ValueError "All arrays must be of the same length").

(** Lines 90-112: the body of the [try]. *)
Definition attempt_once (reply : net_reply) : result DataFrame :=
  match reply with
  | GetRaises e => Raise (RequestException e)
  | Response status_code body =>
      _ <~ (if (status_code =? 429)%Z then raise_for_status status_code
            else Ok tt) ;;
      _ <~ raise_for_status status_code ;;
      data <~ json body ;;
      build_frame data
  end.

(** Lines 88-121: [for attempt in range(3)], with the handler of
    [requests.exceptions.RequestException]; any other exception leaves the
    loop and the function. *)
Fixpoint retry_loop (net : nat -> net_reply) (attempts : list nat)
  : prog DataFrame :=
  match attempts with
  | [] => emit StErrorBusy ;;; ret empty_frame
  | attempt :: rest =>
      emit (HttpGet attempt) ;;;
      match attempt_once (net attempt) with
      | Ok df => ret df
      | Raise (RequestException _) =>
          emit (Sleep (2 ^ Z.of_nat attempt)) ;;; retry_loop net rest
      | Raise e => raise e
      end
  end.

(** [net n] is the answer to the call made in attempt [n].  The cache of
    [st.cache_data] is not modelled: every call runs the body. *)
Definition get_weather_data_safe (net : nat -> net_reply) : prog DataFrame :=
  retry_loop net (seq 0 3).

(** *** The audit *)

(** The float 4046.86. *)
Definition LITERS_PER_MM_ACRE : pyfloat := py_float (404686 # 100).

Record Balance : Type := {
  Crop_Water_Need : Series;
  Irrigation_Req : Series;
  total_liters : Series;
  Pump_Hours : Series
}.

(** Lines 134-139.  [kc] and [field_size] go through [float]; the pump
    capacity goes through [int], whatever number it is, and the integer
    divisor becomes a float in the division, which raises when the divisor
    is beyond the range of the floats. *)
Definition calculate (df : DataFrame) (kc field_size pump_capacity : Q)
  : result Balance :=
  let need := mul_scalar (ETo df) (py_float kc) in
  let req := clip 0 (sub need (Rain df)) in
  let liters :=
    mul_scalar (mul_scalar req LITERS_PER_MM_ACRE) (py_float field_size) in
  hours <~ div_int liters (trunc pump_capacity * 60) ;;
  Ok {| Crop_Water_Need := need;
        Irrigation_Req := req;
        total_liters := liters;
        Pump_Hours := hours |}.

Record Row : Type := {
  r_Date : string;
  r_Rain : pyfloat;
  r_Crop_Water_Need : pyfloat;
  r_Irrigation_Req : pyfloat;
  r_Pump_Hours : pyfloat
}.

Definition out_of_bounds {A} : result A :=
  Raise (IndexError "single positional indexer is out-of-bounds").

Definition iloc_s (s : Series) (i : nat) : result pyfloat :=
  match nth_error s i with Some x => Ok x | None => out_of_bounds end.

(** [df.iloc[i]] once the derived columns are in the frame. *)
Definition iloc (df : DataFrame) (b : Balance) (i : nat) : result Row :=
  match nth_error (Date df) i with
  | None => out_of_bounds
  | Some d =>
      rain <~ iloc_s (Rain df) i ;;
      need <~ iloc_s (Crop_Water_Need b) i ;;
      req <~ iloc_s (Irrigation_Req b) i ;;
      hours <~ iloc_s (Pump_Hours b) i ;;
      Ok {| r_Date := d; r_Rain := rain; r_Crop_Water_Need := need;
            r_Irrigation_Req := req; r_Pump_Hours := hours |}
  end.

(** Lines 150-151. *)
Definition pump_runtime (pump_hours : pyfloat) : result (Z * Z) :=
  hrs <~ py_int pump_hours ;;
  mins <~ py_int (fmul (fmod1 pump_hours) (Fin 60)) ;;
  Ok (hrs, mins).

(** Lines 189-196. *)
Definition classify (today : Row) : status :=
  if fgt0 (r_Irrigation_Req today) then WATER_STRESS else ADEQUATE.

(** Lines 133-205: the body of the [try]. *)
Definition dashboard (df : DataFrame) (kc field_size pump_capacity : Q)
  : prog unit :=
  b <- lift (calculate df kc field_size pump_capacity) ;;
  today <- lift (iloc df b 2) ;;
  emit (MetricRain (r_Rain today)) ;;;
  emit (MetricCropThirst (r_Crop_Water_Need today)) ;;;
  emit (MetricIrrigation (r_Irrigation_Req today)
          (if fgt0 (r_Irrigation_Req today) then Deficit else Balanced)) ;;;
  hm <- lift (pump_runtime (r_Pump_Hours today)) ;;
  emit (MetricPumpRuntime (fst hm) (snd hm)) ;;;
  emit Divider ;;;
  emit (Chart (r_Date today)) ;;;
  match classify today with
  | WATER_STRESS =>
      liters <- lift (rbind (iloc_s (total_liters b) 2) py_int) ;;
      emit (StatusWaterStress (fst hm) (snd hm) liters)
  | ADEQUATE => emit StatusAdequate
  end ;;;
  emit DataTable.

(** [try: ... except Exception as e: st.error(...)]. *)
Definition try_except (m : prog unit) : prog unit :=
  match m with
  | (t, Ok _) => (t, Ok tt)
  | (t, Raise e) => (t ++ [StErrorCalc e], Ok tt)
  end.

(** Lines 124-210: one press of "Run Irrigation Audit". *)
Definition run_audit (net : nat -> net_reply) (kc field_size pump_capacity : Q)
  : prog unit :=
  df <- get_weather_data_safe net ;;
  if empty df then ret tt
  else try_except (dashboard df kc field_size pump_capacity) ;;; emit Divider.

(** The status a trace reports, if any. *)
Definition status_of (e : effect) : option status :=
  match e with
  | StatusWaterStress _ _ _ => Some WATER_STRESS
  | StatusAdequate => Some ADEQUATE
  | _ => None
  end.

Definition reported_statuses (t : list effect) : list status :=
  flat_map (fun e => match status_of e with Some s => [s] | None => [] end) t.

Definition is_sleep (e : effect) : option Z :=
  match e with Sleep s => Some s | _ => None end.

Definition sleeps (t : list effect) : list Z :=
  flat_map (fun e => match is_sleep e with Some s => [s] | None => [] end) t.

Definition requests_made (t : list effect) : nat :=
  List.length (filter (fun e => match e with HttpGet _ => true | _ => false end) t).

End App.

(* ------------------------------------------------------------------ *)
(** ** irrigation_app.py: the crop database and the crop selector *)

Module Sidebar.

Import App.

(** A JSON object: its keys in their order, each with its value. *)
Definition dict (V : Type) : Type := list (string * V).

(** [list(d.keys())]. *)
Definition keys {V} (d : dict V) : list string := map fst d.

(** [d[key]]. *)
Fixpoint dict_get {V} (d : dict V) (key : string) : result V :=
  match d with
  | [] => Raise (KeyError key)
  | (k, v) :: rest => if String.eqb key k then Ok v else dict_get rest key
  end.

(** [d[key]] for a key that may be [None]; no JSON object has that key. *)
Definition dict_get_opt {V} (d : dict V) (key : option string) : result V :=
  match key with
  | Some k => dict_get d k
  | None => Raise (KeyError "None")
  end.

(** [key in d]. *)
Definition contains {V} (d : dict V) (key : string) : bool :=
  existsb (String.eqb key) (keys d).

(** The table of 'fao_crops.json': category, crop, stage key, Kc.  A file
    whose JSON is not an object of objects of objects of numbers is outside
    the model. *)
Definition crop_table : Type := dict (dict (dict Q)).

(** What [load_crop_db] finds on disk: no file; a file that [open] refuses;
    a file that [json.load] refuses; a table. *)
Inductive crop_file : Type :=
| NoFile
| OpenRaises
| LoadRaises
| Parsed (db : crop_table).

(** Lines 17-24.  The cache of [st.cache_data] is not modelled. *)
Definition load_crop_db (f : crop_file) : crop_table :=
  match f with
  | NoFile => []                       (* not os.path.exists: return {} *)
  | OpenRaises | LoadRaises => []      (* except Exception: return {} *)
  | Parsed db => db
  end.

(** [st.sidebar.selectbox(label, options)]: the option at the position the
    user has picked; [None] when there is none. *)
Definition selectbox (options : list string) (pick : nat) : option string :=
  nth_error options pick.

(** Lines 63-67. *)
Definition stage_options : dict string :=
  [("Initial (Planting/Seedling)", "init");
   ("Mid-Season (Flowering/Fruiting)", "mid");
   ("Late Season (Ripening/Harvest)", "end")]%string.

(** The position the growth-stage box starts at ([index=1]). *)
Definition default_stage : nat := 1.

Inductive sidebar_note : Type :=
| KcInfo (kc : Q) (stage_label : option string)   (* st.sidebar.info *)
| DbNotFoundWarning.                              (* st.sidebar.warning *)

Record crop_choice : Type := {
  crop_name : option string;
  kc : Q
}.

(** Lines 54-55. *)
Definition default_choice : crop_choice :=
  {| crop_name := Some "Standard Crop"%string; kc := 1 |}.

(** Lines 57-74: the three boxes and the lookup.  The lookup is not inside
    any [try]: a missing key ends the script. *)
Definition crop_config (crop_db : crop_table)
  (pick_category pick_crop pick_stage : nat)
  : list sidebar_note * result crop_choice :=
  match crop_db with
  | [] => ([DbNotFoundWarning], Ok default_choice)
  | _ :: _ =>
      match selectbox (keys crop_db) pick_category with
      | None => ([], Ok default_choice)
      | Some category =>
          if contains crop_db category then
            let stage_label := selectbox (keys stage_options) pick_stage in
            match
              crops <~ dict_get crop_db category ;;
              stage_key <~ dict_get_opt stage_options stage_label ;;
              stages <~ dict_get_opt crops (selectbox (keys crops) pick_crop) ;;
              k <~ dict_get stages stage_key ;;
              Ok {| crop_name := selectbox (keys crops) pick_crop; kc := k |}
            with
            | Ok choice => ([KcInfo (kc choice) stage_label], Ok choice)
            | Raise e => ([], Raise e)
            end
          else ([], Ok default_choice)
      end
  end.

End Sidebar.

(* ------------------------------------------------------------------ *)
(** ** The specification's wording, for comparison with the code *)

Module Spec.

(** Rounding to the nearest integer. *)
Definition round_nearest (q : Q) : Z := Qfloor (q + (1 # 2)).

(** "hours = floor(pump_hours), minutes = round((pump_hours - hours) * 60)". *)
Definition pump_split (pump_hours : Q) : Z * Z :=
  let hours := Qfloor pump_hours in
  (hours, round_nearest ((pump_hours - inject_Z hours) * 60)).

(** "max(0, x)". *)
Definition max0 (x : pyfloat) : pyfloat :=
  if fgt0 x then x else Fin 0.

(** "Expected JSON response shape: {daily: {time: [ISO date strings],
    et0_fao_evapotranspiration: [...], precipitation_sum: [...]}}.  Arrays
    must be equal length". *)
Definition expected_shape (data : option App.daily_json) : bool :=
  match data with
  | Some {| App.j_time := Some time;
            App.j_et0_fao_evapotranspiration := Some et0;
            App.j_precipitation_sum := Some rain |} =>
      ((List.length time =? List.length et0)
       && (List.length time =? List.length rain))%nat
      && forallb (fun t => match t with
                           | App.Parseable _ => true
                           | App.Unparseable _ => false
                           end) time
  | _ => false
  end.

End Spec.

(** The exceptions the retry loop handles. *)
Definition is_request_exception (e : exn) : bool :=
  match e with RequestException _ => true | _ => false end.

(** A float that is a number satisfying [P]; a float that is missing or
    such a number. *)
Definition number_with (P : Q -> Prop) (x : pyfloat) : Prop :=
  exists q, x = Fin q /\ P q.

Definition missing_or (P : Q -> Prop) (x : pyfloat) : Prop :=
  x = NaN \/ number_with P x.

(** A rational that is a binary64 number: rounding leaves its value. *)
Definition is_binary64 (q : Q) : Prop :=
  exists p, round64 q = Fin p /\ p == q.

(** A float that is not missing and not below zero. *)
Definition nonneg (x : pyfloat) : Prop := fle (Fin 0) x.

(** A reading that is not negative and not so small that interpolating
    from it underflows: an infinity, zero, or a float of at least 2^-1000. *)
Definition steady (x : pyfloat) : Prop :=
  x = PosInf \/
  exists a, x = Fin a /\ round64 a = Fin a /\
            (a == 0 \/ Binary64.pow2 (-1000) <= a).

(** A float that is missing or not below zero. *)
Definition missing_or_nonneg (x : pyfloat) : Prop :=
  x = NaN \/ fle (Fin 0) x.

(** A frame whose two columns hold no missing value and have the length
    of its index. *)
Definition clean_frame (df : App.DataFrame) : Prop :=
  Forall (fun x => isna x = false) (App.ETo df) /\
  Forall (fun x => isna x = false) (App.Rain df) /\
  List.length (App.ETo df) = List.length (App.Date df) /\
  List.length (App.Rain df) = List.length (App.Date df).

(** The trace of [k] failed attempts, each followed by its delay. *)
Definition failed_attempts (k : nat) : list App.effect :=
  flat_map (fun j => [App.HttpGet j; App.Sleep (2 ^ Z.of_nat j)]) (seq 0 k).

(** What the dashboard does once the reference day is known, by the
    outcome of the runtime split and of the liters of the plan. *)
Definition dashboard_after (today : App.Row)
  (runtime : result (Z * Z)) (liters : result Z) : App.prog unit :=
  let metrics :=
    [App.MetricRain (App.r_Rain today);
     App.MetricCropThirst (App.r_Crop_Water_Need today);
     App.MetricIrrigation (App.r_Irrigation_Req today)
       (if fgt0 (App.r_Irrigation_Req today)
        then App.Deficit else App.Balanced)] in
  match runtime with
  | Raise e => (metrics, Raise e)
  | Ok hm =>
      let shown :=
        metrics ++ [App.MetricPumpRuntime (fst hm) (snd hm); App.Divider;
                    App.Chart (App.r_Date today)] in
      match App.classify today with
      | App.ADEQUATE =>
          (shown ++ [App.StatusAdequate; App.DataTable], Ok tt)
      | App.WATER_STRESS =>
          match liters with
          | Raise e => (shown, Raise e)
          | Ok l =>
              (shown ++ [App.StatusWaterStress (fst hm) (snd hm) l;
                         App.DataTable], Ok tt)
          end
      end
  end.

(** The whole of the seconds slept in a trace. *)
Definition total_sleep (t : list App.effect) : Z :=
  fold_right Z.add 0%Z (App.sleeps t).

(** Counting the requests and delays of a trace. *)
Ltac count_trace :=
  unfold App.requests_made, App.sleeps; simpl;
  repeat match goal with |- _ /\ _ => split end;
  solve [reflexivity | lia].

(* ------------------------------------------------------------------ *)
(** * Properties *)

Import Binary64 Series App.
(** ** Rounding *)

Lemma pow2_pos (e : Z) : 0 < pow2 e.
Proof. apply Qpower_0_lt. reflexivity. Qed.

Lemma pow2_add (a b : Z) : pow2 (a + b) == pow2 a * pow2 b.
Proof. apply Qpower_plus. discriminate. Qed.

Lemma pow2_le (a b : Z) : (a <= b)%Z -> pow2 a <= pow2 b.
Proof. intros H. apply Qpower_le_compat_l; [exact H | discriminate]. Qed.

Lemma pow2_lt (a b : Z) : (a < b)%Z -> pow2 a < pow2 b.
Proof. intros H. apply Qpower_lt_compat_l; [exact H | reflexivity]. Qed.

Lemma pow2_lt_inv (a b : Z) : pow2 a < pow2 b -> (a < b)%Z.
Proof. intros H. apply Qpower_lt_compat_l_inv with 2; [exact H | reflexivity]. Qed.

Lemma pow2_Z (z : Z) : (0 <= z)%Z -> pow2 z == inject_Z (2 ^ z).
Proof. intros H. unfold pow2. now rewrite Zpower_Qpower. Qed.

Lemma pow2_cancel (c : Z) : pow2 (- c) * pow2 c == 1.
Proof. rewrite <- pow2_add. replace (- c + c)%Z with 0%Z by lia. reflexivity. Qed.

Lemma pow2_succ (a : Z) : pow2 (a + 1) == 2 * pow2 a.
Proof. rewrite pow2_add. change (pow2 1) with 2. ring. Qed.

Lemma binade_bounds (x : Q) :
  0 < x ->
  let k := (Z.log2 (Qnum x) - Z.log2 (Zpos (Qden x)))%Z in
  pow2 (k - 1) < x /\ x < pow2 (k + 1).
Proof.
  intros Hx k. destruct x as [n d]. simpl in k.
  assert (Hn : (0 < n)%Z) by (unfold Qlt in Hx; simpl in Hx; lia).
  pose proof (Z.log2_spec n Hn) as [Hn1 Hn2].
  pose proof (Z.log2_spec (Zpos d) (Pos2Z.is_pos d)) as [Hd1 Hd2].
  pose proof (Z.log2_nonneg n) as Ln.
  pose proof (Z.log2_nonneg (Zpos d)) as Ld.
  set (ln := Z.log2 n) in *. set (ld := Z.log2 (Zpos d)) in *.
  assert (Hk : pow2 k == inject_Z (2 ^ ln) / inject_Z (2 ^ ld)).
  { unfold k, pow2. rewrite Qpower_minus by discriminate.
    rewrite (Zpower_Qpower 2 ln Ln), (Zpower_Qpower 2 ld Ld). reflexivity. }
  assert (HA : 0 < inject_Z (2 ^ ln)).
  { change 0 with (inject_Z 0). rewrite <- Zlt_Qlt. apply Z.pow_pos_nonneg; lia. }
  assert (HB : 0 < inject_Z (2 ^ ld)).
  { change 0 with (inject_Z 0). rewrite <- Zlt_Qlt. apply Z.pow_pos_nonneg; lia. }
  assert (Hx' : n # d == inject_Z n / inject_Z (Zpos d)) by apply Qmake_Qdiv.
  assert (HD : 0 < inject_Z (Zpos d)) by reflexivity.
  rewrite Zle_Qle in Hn1, Hd1. rewrite Zlt_Qlt in Hn2, Hd2.
  rewrite Z.pow_succ_r, inject_Z_mult in Hn2, Hd2 by assumption.
  change (inject_Z 2) with 2 in Hn2, Hd2.
  set (A := inject_Z (2 ^ ln)) in *. set (B := inject_Z (2 ^ ld)) in *.
  set (N := inject_Z n) in *. set (D := inject_Z (Zpos d)) in *.
  split.
  - replace (k - 1)%Z with (k + -1)%Z by lia.
    rewrite pow2_add, Hk, Hx'. change (pow2 (-1)) with (1 # 2).
    apply Qlt_shift_div_l; [exact HD |].
    assert (E : A / B * (1 # 2) * D == (A * D) / (2 * B)) by (field; lra).
    rewrite E. apply Qlt_shift_div_r; [lra |]. nra.
  - rewrite pow2_succ, Hk, Hx'.
    apply Qlt_shift_div_r; [exact HD |].
    assert (E : 2 * (A / B) * D == (2 * A * D) / B) by (field; lra).
    rewrite E. apply Qlt_shift_div_l; [exact HB |]. nra.
Qed.

Lemma binade_spec (x : Q) :
  0 < x -> pow2 (binade x) <= x /\ x < pow2 (binade x + 1).
Proof.
  intros Hx. destruct (binade_bounds x Hx) as [Hlo Hhi].
  unfold binade.
  set (k := (Z.log2 (Qnum x) - Z.log2 (Zpos (Qden x)))%Z) in *.
  destruct (Qle_bool (pow2 k) x) eqn:E.
  - split; [now apply Qle_bool_iff | exact Hhi].
  - split; [now apply Qlt_le_weak |].
    replace (k - 1 + 1)%Z with k by lia.
    apply Qnot_le_lt. intros H. apply Qle_bool_iff in H. congruence.
Qed.

Lemma binade_unique (x : Q) (e : Z) :
  pow2 e <= x -> x < pow2 (e + 1) -> binade x = e.
Proof.
  intros Hlo Hhi.
  assert (Hx : 0 < x) by (pose proof (pow2_pos e); lra).
  destruct (binade_spec x Hx) as [Blo Bhi].
  assert (H1 : (binade x < e + 1)%Z) by (apply pow2_lt_inv; lra).
  assert (H2 : (e < binade x + 1)%Z) by (apply pow2_lt_inv; lra).
  lia.
Qed.

Lemma binade_mono (x y : Q) : 0 < x -> x <= y -> (binade x <= binade y)%Z.
Proof.
  intros Hx Hxy.
  destruct (binade_spec x Hx) as [Xlo Xhi].
  destruct (binade_spec y) as [Ylo Yhi]; [lra |].
  assert (H : (binade x < binade y + 1)%Z) by (apply pow2_lt_inv; lra).
  lia.
Qed.

(** Rounding to the nearest integer, ties to even. *)

Lemma rne_cases (y : Q) :
  (rne y = Qfloor y /\ y - inject_Z (Qfloor y) <= 1 # 2) \/
  (rne y = (Qfloor y + 1)%Z /\ 1 # 2 <= y - inject_Z (Qfloor y)).
Proof.
  unfold rne.
  destruct (Qcompare_spec (y - inject_Z (Qfloor y)) (1 # 2)) as [H | H | H].
  - destruct (Z.even (Qfloor y)); [left | right]; split; trivial; lra.
  - left. split; trivial. lra.
  - right. split; trivial. lra.
Qed.

Lemma rne_near (y : Q) :
  inject_Z (rne y) <= y + (1 # 2) /\ y - (1 # 2) <= inject_Z (rne y).
Proof.
  pose proof (Qfloor_le y) as Hlo. pose proof (Qlt_floor y) as Hhi.
  rewrite inject_Z_plus in Hhi. change (inject_Z 1) with 1 in Hhi.
  destruct (rne_cases y) as [[-> H] | [-> H]].
  - split; lra.
  - rewrite inject_Z_plus. change (inject_Z 1) with 1. split; lra.
Qed.

Lemma rne_mono (y1 y2 : Q) : y1 <= y2 -> (rne y1 <= rne y2)%Z.
Proof.
  intros H.
  pose proof (Qfloor_resp_le _ _ H) as Hf.
  destruct (Z.eq_dec (Qfloor y1) (Qfloor y2)) as [E | NE].
  - unfold rne. rewrite E.
    destruct (Qcompare_spec (y1 - inject_Z (Qfloor y2)) (1 # 2)) as [H1 | H1 | H1];
    destruct (Qcompare_spec (y2 - inject_Z (Qfloor y2)) (1 # 2)) as [H2 | H2 | H2];
      try destruct (Z.even (Qfloor y2)); try lia; lra.
  - destruct (rne_cases y1) as [[-> _] | [-> _]];
    destruct (rne_cases y2) as [[-> _] | [-> _]]; lia.
Qed.

Lemma rne_Z (k : Z) : rne (inject_Z k) = k.
Proof.
  unfold rne. rewrite Qfloor_Z.
  destruct (Qcompare_spec (inject_Z k - inject_Z k) (1 # 2)) as [H | H | H];
    trivial; lra.
Qed.

Lemma rne_comp (y1 y2 : Q) : y1 == y2 -> rne y1 = rne y2.
Proof.
  intros H. apply Z.le_antisymm; apply rne_mono; rewrite H; apply Qle_refl.
Qed.

Lemma rne_le_Z (y : Q) (k : Z) : y <= inject_Z k -> (rne y <= k)%Z.
Proof. intros H. rewrite <- (rne_Z k). now apply rne_mono. Qed.

Lemma rne_ge_Z (y : Q) (k : Z) : inject_Z k <= y -> (k <= rne y)%Z.
Proof. intros H. rewrite <- (rne_Z k). now apply rne_mono. Qed.

(** Grid points bound the rounded value. *)

Lemma grid_pos_le_pow2 (x : Q) (t : Z) :
  x <= pow2 t -> (ulp_exponent x <= t)%Z -> grid_pos x <= pow2 t.
Proof.
  intros Hx Ht. unfold grid_pos. set (c := ulp_exponent x) in *.
  pose proof (pow2_pos c) as Hc. pose proof (pow2_pos (- c)) as Hc'.
  assert (E : pow2 t == inject_Z (2 ^ (t - c)) * pow2 c).
  { rewrite <- pow2_Z by lia. rewrite <- pow2_add. now replace (t - c + c)%Z with t by lia. }
  rewrite E. apply Qmult_le_compat_r; [| lra].
  rewrite <- Zle_Qle. apply rne_le_Z.
  rewrite <- pow2_Z by lia. replace (t - c)%Z with (t + - c)%Z by lia.
  rewrite pow2_add. apply Qmult_le_compat_r; lra.
Qed.

Lemma grid_pos_ge_pow2 (x : Q) (t : Z) :
  pow2 t <= x -> (ulp_exponent x <= t)%Z -> pow2 t <= grid_pos x.
Proof.
  intros Hx Ht. unfold grid_pos. set (c := ulp_exponent x) in *.
  pose proof (pow2_pos c) as Hc. pose proof (pow2_pos (- c)) as Hc'.
  assert (E : pow2 t == inject_Z (2 ^ (t - c)) * pow2 c).
  { rewrite <- pow2_Z by lia. rewrite <- pow2_add. now replace (t - c + c)%Z with t by lia. }
  rewrite E. apply Qmult_le_compat_r; [| lra].
  rewrite <- Zle_Qle. apply rne_ge_Z.
  rewrite <- pow2_Z by lia. replace (t - c)%Z with (t + - c)%Z by lia.
  rewrite pow2_add. apply Qmult_le_compat_r; lra.
Qed.

Lemma grid_pos_nonneg (x : Q) : 0 <= x -> 0 <= grid_pos x.
Proof.
  intros Hx. unfold grid_pos.
  pose proof (pow2_pos (ulp_exponent x)). pose proof (pow2_pos (- ulp_exponent x)).
  apply Qmult_le_0_compat; [| lra].
  change 0 with (inject_Z 0). rewrite <- Zle_Qle. apply rne_ge_Z.
  change (inject_Z 0) with 0. apply Qmult_le_0_compat; lra.
Qed.

Lemma grid_pos_mono (x y : Q) : 0 < x -> x <= y -> grid_pos x <= grid_pos y.
Proof.
  intros Hx Hxy.
  assert (Hy : 0 < y) by lra.
  pose proof (binade_mono x y Hx Hxy) as He.
  destruct (binade_spec x Hx) as [Xlo Xhi].
  destruct (binade_spec y Hy) as [Ylo Yhi].
  destruct (Z.eq_dec (ulp_exponent x) (ulp_exponent y)) as [E | NE].
  - unfold grid_pos. rewrite E. set (c := ulp_exponent y).
    pose proof (pow2_pos c). pose proof (pow2_pos (- c)).
    apply Qmult_le_compat_r; [| lra].
    rewrite <- Zle_Qle. apply rne_mono. apply Qmult_le_compat_r; lra.
  - unfold ulp_exponent in NE.
    apply Qle_trans with (pow2 (binade y)).
    + apply Qle_trans with (pow2 (Z.max (binade x) (-1022) + 1)).
      * apply grid_pos_le_pow2; [| unfold ulp_exponent; lia].
        apply Qle_trans with (pow2 (binade x + 1)); [lra | apply pow2_le; lia].
      * apply pow2_le. lia.
    + apply grid_pos_ge_pow2; [exact Ylo | unfold ulp_exponent; lia].
Qed.

(** The error of rounding a number of the normal range. *)
Lemma grid_pos_relative (x : Q) :
  pow2 (-1022) <= x -> grid_pos x <= x * (1 + pow2 (-53)).
Proof.
  intros Hx.
  assert (Hpos : 0 < x) by (pose proof (pow2_pos (-1022)); lra).
  destruct (binade_spec x Hpos) as [Xlo Xhi].
  assert (He : (-1022 <= binade x)%Z).
  { assert ((-1022 < binade x + 1)%Z) by (apply pow2_lt_inv; lra). lia. }
  unfold grid_pos, ulp_exponent. rewrite Z.max_l by lia.
  set (c := (binade x - 52)%Z).
  pose proof (pow2_pos c) as Hc.
  destruct (rne_near (x * pow2 (- c))) as [Hup _].
  assert (E1 : x * pow2 (- c) * pow2 c == x).
  { rewrite <- Qmult_assoc, pow2_cancel. ring. }
  assert (E2 : pow2 c == pow2 (binade x) * pow2 (-52)).
  { unfold c. rewrite <- pow2_add. reflexivity. }
  assert (E3 : pow2 (-53) == pow2 (-52) * (1 # 2)) by reflexivity.
  assert (H52 : 0 < pow2 (-52)) by apply pow2_pos.
  apply Qle_trans with ((x * pow2 (- c) + (1 # 2)) * pow2 c).
  - apply Qmult_le_compat_r; lra.
  - rewrite Qmult_plus_distr_l, E1, E3, E2.
    assert (pow2 (binade x) * pow2 (-52) <= x * pow2 (-52))
      by (apply Qmult_le_compat_r; lra).
    lra.
Qed.

Lemma rne_lt_Z (y : Q) (k : Z) : y + (1 # 2) < inject_Z k -> (rne y < k)%Z.
Proof.
  intros H. destruct (rne_near y) as [Hup _].
  rewrite Zlt_Qlt. lra.
Qed.

Lemma binade_comp (x y : Q) : 0 < x -> x == y -> binade x = binade y.
Proof.
  intros Hx E. assert (Hy : 0 < y) by lra.
  destruct (binade_spec y Hy) as [Lo Hi].
  apply binade_unique; lra.
Qed.

Lemma grid_pos_comp (x y : Q) : 0 < x -> x == y -> grid_pos x == grid_pos y.
Proof.
  intros Hx E. unfold grid_pos, ulp_exponent.
  rewrite (binade_comp x y Hx E).
  set (c := (Z.max (binade y) (-1022) - 52)%Z).
  rewrite (rne_comp (x * pow2 (- c)) (y * pow2 (- c))); [reflexivity |].
  now rewrite E.
Qed.

(** A multiple of a power of two with at most 53 significant bits, above
    the smallest exponent, is on the grid. *)
Lemma grid_pos_fixed (n c : Z) :
  (0 < n < 2 ^ 53)%Z -> (-1074 <= c)%Z ->
  grid_pos (inject_Z n * pow2 c) == inject_Z n * pow2 c.
Proof.
  intros Hn Hc. set (x := inject_Z n * pow2 c).
  pose proof (pow2_pos c) as Pc.
  assert (Hn1 : 1 <= inject_Z n)
    by (change 1 with (inject_Z 1); rewrite <- Zle_Qle; lia).
  assert (Hn2 : inject_Z n < pow2 53).
  { rewrite pow2_Z by lia. rewrite <- Zlt_Qlt. lia. }
  assert (Hx : 0 < x) by (unfold x; nra).
  destruct (binade_spec x Hx) as [Lo Hi].
  assert (He : (binade x < 53 + c)%Z).
  { apply pow2_lt_inv. apply Qle_lt_trans with x; [exact Lo |].
    rewrite pow2_add. unfold x. apply Qmult_lt_compat_r; lra. }
  unfold grid_pos. set (c' := ulp_exponent x).
  assert (Hc' : (c' <= c)%Z) by (unfold c', ulp_exponent; lia).
  assert (E : x * pow2 (- c') == inject_Z (n * 2 ^ (c - c'))).
  { unfold x. rewrite inject_Z_mult, <- pow2_Z by lia.
    replace (c - c')%Z with (c + - c')%Z by lia. rewrite pow2_add. ring. }
  rewrite (rne_comp _ _ E), rne_Z.
  rewrite inject_Z_mult, <- pow2_Z by lia.
  unfold x. rewrite <- Qmult_assoc, <- pow2_add.
  now replace (c - c' + c')%Z with c by lia.
Qed.

(** What rounding a positive number gives: zero, or a number with at most
    53 significant bits. *)
Lemma grid_pos_shape (x : Q) :
  0 < x ->
  grid_pos x == 0 \/
  exists n c, (0 < n < 2 ^ 53)%Z /\ (-1074 <= c)%Z /\
              grid_pos x == inject_Z n * pow2 c.
Proof.
  intros Hx. destruct (binade_spec x Hx) as [Lo Hi].
  set (c := ulp_exponent x).
  assert (Hc : (-1074 <= c)%Z) by (unfold c, ulp_exponent; lia).
  assert (Hce : (binade x - 52 <= c)%Z) by (unfold c, ulp_exponent; lia).
  pose proof (pow2_pos c) as Pc. pose proof (pow2_pos (- c)) as Pc'.
  set (n := rne (x * pow2 (- c))).
  assert (Hn0 : (0 <= n)%Z).
  { apply rne_ge_Z. change (inject_Z 0) with 0. apply Qmult_le_0_compat; lra. }
  assert (Hn1 : (n <= 2 ^ 53)%Z).
  { apply rne_le_Z. rewrite <- pow2_Z by lia.
    apply Qle_trans with (pow2 (binade x + 1) * pow2 (- c)).
    - apply Qmult_le_compat_r; lra.
    - rewrite <- pow2_add. apply pow2_le. lia. }
  assert (G : grid_pos x == inject_Z n * pow2 c) by reflexivity.
  destruct (Z.eq_dec n 0) as [Z0 | NZ].
  - left. rewrite G, Z0. ring.
  - right. destruct (Z.eq_dec n (2 ^ 53)) as [Top | NT].
    + exists (2 ^ 52)%Z, (c + 1)%Z. split; [lia |]. split; [lia |].
      rewrite G, Top, pow2_succ.
      change (inject_Z (2 ^ 53)) with (inject_Z (2 ^ 52) * 2). ring.
    + exists n, c. split; [lia |]. split; [lia | exact G].
Qed.

Lemma grid_pos_idem (x : Q) :
  0 < x -> 0 < grid_pos x -> grid_pos (grid_pos x) == grid_pos x.
Proof.
  intros Hx Hg. destruct (grid_pos_shape x Hx) as [Z0 | (n & c & Hn & Hc & E)].
  - lra.
  - rewrite (grid_pos_comp _ _ Hg E), E. now apply grid_pos_fixed.
Qed.

Lemma grid_pos_below_overflow (x : Q) :
  0 < x -> x < OVERFLOW -> grid_pos x <= MAX_FLOAT.
Proof.
  intros Hx Hov.
  destruct (binade_spec x Hx) as [Lo Hi].
  assert (He : (binade x < 1024)%Z).
  { apply pow2_lt_inv. apply Qle_lt_trans with x; [exact Lo |].
    apply Qlt_trans with OVERFLOW; [exact Hov |].
    rewrite pow2_Z by lia. unfold OVERFLOW. rewrite <- Zlt_Qlt. lia. }
  destruct (Z.eq_dec (binade x) 1023) as [Top | NT].
  - unfold grid_pos, ulp_exponent. rewrite Top.
    change (Z.max 1023 (-1022) - 52)%Z with 971%Z. cbn [Z.opp].
    unfold MAX_FLOAT. rewrite inject_Z_mult.
    rewrite <- (pow2_Z 971) by lia.
    pose proof (pow2_pos 971) as P. pose proof (pow2_pos (-971)) as P'.
    apply Qmult_le_compat_r; [| lra].
    rewrite <- Zle_Qle.
    assert ((rne (x * pow2 (-971)) < 2 ^ 53)%Z); [| lia].
    apply rne_lt_Z.
    assert (E : OVERFLOW * pow2 (-971) == inject_Z (2 ^ 53) - (1 # 2)).
    { unfold OVERFLOW.
      replace (2 ^ 1024 - 2 ^ 970)%Z with ((2 ^ 54 - 1) * 2 ^ 970)%Z by lia.
      rewrite inject_Z_mult, <- (pow2_Z 970) by lia.
      rewrite <- Qmult_assoc, <- pow2_add.
      change (pow2 (970 + -971)) with (1 # 2).
      change (inject_Z (2 ^ 54 - 1)) with (2 * inject_Z (2 ^ 53) - 1). ring. }
    assert (x * pow2 (-971) < OVERFLOW * pow2 (-971))
      by (apply Qmult_lt_compat_r; lra).
    lra.
  - apply Qle_trans with (pow2 1023).
    + apply grid_pos_le_pow2.
      * apply Qle_trans with (pow2 (binade x + 1)); [lra | apply pow2_le; lia].
      * unfold ulp_exponent. lia.
    + rewrite pow2_Z by lia. unfold MAX_FLOAT. rewrite <- Zle_Qle. lia.
Qed.

Lemma MAX_FLOAT_lt_OVERFLOW : MAX_FLOAT < OVERFLOW.
Proof. unfold MAX_FLOAT, OVERFLOW. rewrite <- Zlt_Qlt. lia. Qed.

(** *** The signed grid *)

Lemma Qnum_sign (x : Q) :
  (Qnum x = 0%Z /\ x == 0) \/
  ((exists p, Qnum x = Zpos p) /\ 0 < x) \/
  ((exists p, Qnum x = Zneg p) /\ x < 0).
Proof.
  destruct x as [[| p | p] d]; unfold Qeq, Qlt; simpl.
  - left. split; reflexivity.
  - right. left. split; [now exists p | lia].
  - right. right. split; [now exists p | lia].
Qed.

Lemma grid64_zero (x : Q) : x == 0 -> grid64 x = 0.
Proof.
  intros E. unfold grid64.
  destruct (Qnum_sign x) as [[N _] | [[[p N] H] | [[p N] H]]]; rewrite N;
    [reflexivity | lra | lra].
Qed.

Lemma grid64_pos (x : Q) : 0 < x -> grid64 x = grid_pos x.
Proof.
  intros E. unfold grid64.
  destruct (Qnum_sign x) as [[N H] | [[[p N] H] | [[p N] H]]]; rewrite N;
    [lra | reflexivity | lra].
Qed.

Lemma grid64_neg (x : Q) : x < 0 -> grid64 x = - grid_pos (- x).
Proof.
  intros E. unfold grid64.
  destruct (Qnum_sign x) as [[N H] | [[[p N] H] | [[p N] H]]]; rewrite N;
    [lra | lra | reflexivity].
Qed.

Lemma grid64_nonneg (x : Q) : 0 <= x -> 0 <= grid64 x.
Proof.
  intros H. destruct (Qlt_le_dec 0 x) as [P | Z].
  - rewrite grid64_pos by exact P. apply grid_pos_nonneg. lra.
  - rewrite grid64_zero by lra. lra.
Qed.

Lemma grid64_nonpos (x : Q) : x <= 0 -> grid64 x <= 0.
Proof.
  intros H. destruct (Qlt_le_dec x 0) as [P | Z].
  - rewrite grid64_neg by exact P.
    assert (0 <= grid_pos (- x)) by (apply grid_pos_nonneg; lra). lra.
  - rewrite grid64_zero by lra. lra.
Qed.

Lemma grid64_mono (x y : Q) : x <= y -> grid64 x <= grid64 y.
Proof.
  intros H. destruct (Qlt_le_dec 0 x) as [Px | Nx].
  - rewrite !grid64_pos by lra. now apply grid_pos_mono.
  - destruct (Qlt_le_dec y 0) as [Ny | Py].
    + rewrite !grid64_neg by lra.
      assert (grid_pos (- y) <= grid_pos (- x)) by (apply grid_pos_mono; lra).
      lra.
    + apply Qle_trans with 0; [now apply grid64_nonpos | now apply grid64_nonneg].
Qed.

Lemma grid64_comp (x y : Q) : x == y -> grid64 x == grid64 y.
Proof.
  intros E. destruct (Qlt_le_dec 0 x) as [Px | Nx].
  - rewrite !grid64_pos by lra. now apply grid_pos_comp.
  - destruct (Qlt_le_dec x 0) as [Ny | Py].
    + rewrite !grid64_neg by lra.
      rewrite (grid_pos_comp (- x) (- y)); [reflexivity | lra | now rewrite E].
    + rewrite !grid64_zero by lra. reflexivity.
Qed.

Lemma grid64_opp (x : Q) : grid64 (- x) == - grid64 x.
Proof.
  destruct (Qlt_le_dec 0 x) as [Px | Nx].
  - rewrite (grid64_pos x), (grid64_neg (- x)) by lra.
    rewrite (grid_pos_comp (- - x) x); [reflexivity | lra | ring].
  - destruct (Qlt_le_dec x 0) as [Ny | Py].
    + rewrite (grid64_neg x), (grid64_pos (- x)) by lra. ring.
    + rewrite !grid64_zero by lra. reflexivity.
Qed.

Lemma grid64_bounded (x : Q) :
  - OVERFLOW < x -> x < OVERFLOW ->
  - MAX_FLOAT <= grid64 x /\ grid64 x <= MAX_FLOAT.
Proof.
  intros Lo Hi.
  assert (M : 0 <= MAX_FLOAT)
    by (unfold MAX_FLOAT; change 0 with (inject_Z 0); rewrite <- Zle_Qle; lia).
  destruct (Qlt_le_dec 0 x) as [Px | Nx].
  - rewrite grid64_pos by exact Px.
    pose proof (grid_pos_below_overflow x Px Hi).
    pose proof (grid_pos_nonneg x). lra.
  - destruct (Qlt_le_dec x 0) as [Ny | Py].
    + rewrite grid64_neg by exact Ny.
      assert (grid_pos (- x) <= MAX_FLOAT)
        by (apply grid_pos_below_overflow; lra).
      assert (0 <= grid_pos (- x)) by (apply grid_pos_nonneg; lra). lra.
    + rewrite grid64_zero by lra. lra.
Qed.

Lemma grid64_idem (x : Q) : grid64 (grid64 x) == grid64 x.
Proof.
  destruct (Qlt_le_dec 0 x) as [Px | Nx].
  - rewrite (grid64_pos x) by exact Px.
    pose proof (grid_pos_nonneg x) as G.
    destruct (Qlt_le_dec 0 (grid_pos x)) as [Pg | Zg].
    + rewrite grid64_pos by exact Pg. now apply grid_pos_idem.
    + rewrite grid64_zero by lra. lra.
  - destruct (Qlt_le_dec x 0) as [Ny | Py].
    + rewrite (grid64_neg x) by exact Ny.
      assert (G : 0 <= grid_pos (- x)) by (apply grid_pos_nonneg; lra).
      rewrite grid64_opp.
      destruct (Qlt_le_dec 0 (grid_pos (- x))) as [Pg | Zg].
      * rewrite grid64_pos by exact Pg. rewrite grid_pos_idem; [reflexivity | lra | exact Pg].
      * rewrite (grid64_zero (grid_pos (- x))) by lra. lra.
    + rewrite (grid64_zero x) by lra. reflexivity.
Qed.

(** *** Rounding *)

Lemma OVERFLOW_pos : 0 < OVERFLOW.
Proof. unfold OVERFLOW. change 0 with (inject_Z 0). rewrite <- Zlt_Qlt. lia. Qed.

Lemma round64_cases (q : Q) :
  (OVERFLOW <= q /\ round64 q = PosInf) \/
  (q <= - OVERFLOW /\ round64 q = NegInf) \/
  (- OVERFLOW < q /\ q < OVERFLOW /\
   round64 q = Fin (Qred (grid64 (Qred q)))).
Proof.
  unfold round64. cbv zeta.
  destruct (Qle_bool OVERFLOW (Qred q)) eqn:E1.
  - left. apply Qle_bool_iff in E1. rewrite Qred_correct in E1. now split.
  - destruct (Qle_bool (Qred q) (- OVERFLOW)) eqn:E2.
    + right. left. apply Qle_bool_iff in E2. rewrite Qred_correct in E2.
      now split.
    + right. right.
      assert (N1 : ~ OVERFLOW <= q).
      { intros H. rewrite <- (Qred_correct q) in H.
        apply Qle_bool_iff in H. congruence. }
      assert (N2 : ~ q <= - OVERFLOW).
      { intros H. rewrite <- (Qred_correct q) in H.
        apply Qle_bool_iff in H. congruence. }
      split; [lra |]. split; [lra | reflexivity].
Qed.

Lemma round64_comp (q q' : Q) : q == q' -> round64 q = round64 q'.
Proof. intros E. unfold round64. now rewrite (Qred_complete q q' E). Qed.

(** The value of a finite result. *)
Lemma round64_Fin (q p : Q) :
  round64 q = Fin p ->
  p = Qred (grid64 (Qred q)) /\ - OVERFLOW < q /\ q < OVERFLOW.
Proof.
  intros H.
  destruct (round64_cases q) as [[_ E] | [[_ E] | (Lo & Hi & E)]].
  - rewrite E in H. discriminate H.
  - rewrite E in H. discriminate H.
  - rewrite E in H. injection H as H. auto.
Qed.

Lemma round64_value (q p : Q) :
  round64 q = Fin p -> p == grid64 q /\ - OVERFLOW < q /\ q < OVERFLOW.
Proof.
  intros H. destruct (round64_Fin q p H) as (-> & Lo & Hi).
  split; [| now split].
  rewrite Qred_correct. apply grid64_comp. apply Qred_correct.
Qed.

Lemma round64_finite (q : Q) :
  - OVERFLOW < q -> q < OVERFLOW -> exists p, round64 q = Fin p.
Proof.
  intros Lo Hi.
  destruct (round64_cases q) as [[H _] | [[H _] | (_ & _ & E)]];
    [lra | lra | eauto].
Qed.

Lemma round64_not_nan (q : Q) : isna (round64 q) = false.
Proof.
  destruct (round64_cases q) as [[_ E] | [[_ E] | (_ & _ & E)]];
    rewrite E; reflexivity.
Qed.

Lemma round64_0 : round64 0 = Fin 0.
Proof. vm_compute. reflexivity. Qed.

Lemma round64_zero (q : Q) : q == 0 -> round64 q = Fin 0.
Proof. intros E. rewrite (round64_comp q 0 E). apply round64_0. Qed.

Lemma round64_mono (q1 q2 : Q) :
  q1 <= q2 -> fle (round64 q1) (round64 q2).
Proof.
  intros H. pose proof OVERFLOW_pos as P.
  destruct (round64_cases q1) as [[H1 E1] | [[H1 E1] | (L1 & U1 & E1)]];
  destruct (round64_cases q2) as [[H2 E2] | [[H2 E2] | (L2 & U2 & E2)]];
  rewrite E1, E2; simpl; try exact I; try lra.
  apply Qred_le, grid64_mono, Qred_le. exact H.
Qed.

Lemma round64_nonneg (q : Q) : 0 <= q -> fle (Fin 0) (round64 q).
Proof. intros H. rewrite <- round64_0. now apply round64_mono. Qed.

Lemma round64_nonpos (q : Q) : q <= 0 -> fle (round64 q) (Fin 0).
Proof. intros H. rewrite <- round64_0. now apply round64_mono. Qed.

Lemma Qopp_opp_eq (q : Q) : - - q = q.
Proof. destruct q as [n d]. unfold Qopp. simpl. now rewrite Z.opp_involutive. Qed.

Lemma round64_opp (q : Q) : round64 (- q) = fopp (round64 q).
Proof.
  pose proof OVERFLOW_pos as P.
  destruct (round64_cases q) as [[H1 E1] | [[H1 E1] | (L1 & U1 & E1)]];
  destruct (round64_cases (- q)) as [[H2 E2] | [[H2 E2] | (L2 & U2 & E2)]];
  rewrite E1, E2; cbn [fopp]; try reflexivity; try lra.
  f_equal. rewrite <- Qred_opp. apply Qred_complete.
  rewrite Qred_opp, grid64_opp. reflexivity.
Qed.

(** Rounding leaves a float where it is. *)
Lemma round64_idem (q p : Q) : round64 q = Fin p -> round64 p = Fin p.
Proof.
  intros H. pose proof MAX_FLOAT_lt_OVERFLOW as M.
  destruct (round64_Fin q p H) as (Ep & Lo & Hi).
  destruct (round64_value q p H) as (V & _ & _).
  destruct (grid64_bounded q Lo Hi) as [B1 B2].
  destruct (round64_cases p) as [[H1 _] | [[H1 _] | (_ & _ & E)]];
    [lra | lra |].
  rewrite E. f_equal. rewrite Ep at 2.
  apply Qred_complete.
  rewrite (grid64_comp (Qred p) (grid64 q)) by (rewrite Qred_correct; exact V).
  rewrite grid64_idem. apply grid64_comp. symmetry. apply Qred_correct.
Qed.

(** The integers of 53 bits are floats. *)
Lemma of_int_exact (z : Z) :
  (Z.abs z <= 2 ^ 53)%Z -> of_int z = Fin (inject_Z z).
Proof.
  intros Hz. unfold of_int.
  assert (G : grid64 (inject_Z z) == inject_Z z).
  { assert (P : forall n, (0 < n <= 2 ^ 53)%Z -> grid_pos (inject_Z n) == inject_Z n).
    { intros n Hn. destruct (Z.eq_dec n (2 ^ 53)) as [-> | NT].
      - rewrite (grid_pos_comp _ (inject_Z (2 ^ 52) * pow2 1)).
        + rewrite grid_pos_fixed by lia. reflexivity.
        + reflexivity.
        + reflexivity.
      - rewrite (grid_pos_comp _ (inject_Z n * pow2 0)).
        + rewrite grid_pos_fixed by lia. change (pow2 0) with 1. ring.
        + change 0 with (inject_Z 0). rewrite <- Zlt_Qlt. lia.
        + change (pow2 0) with 1. ring. }
    destruct (Z.lt_trichotomy z 0) as [N | [-> | Pz]].
    - rewrite grid64_neg
        by (change 0 with (inject_Z 0); rewrite <- Zlt_Qlt; lia).
      rewrite (grid_pos_comp _ (inject_Z (- z))).
      + rewrite P by lia. rewrite inject_Z_opp. ring.
      + rewrite <- inject_Z_opp. change 0 with (inject_Z 0).
        rewrite <- Zlt_Qlt. lia.
      + now rewrite inject_Z_opp.
    - reflexivity.
    - rewrite grid64_pos
        by (change 0 with (inject_Z 0); rewrite <- Zlt_Qlt; lia).
      apply P. lia. }
  assert (B : - OVERFLOW < inject_Z z /\ inject_Z z < OVERFLOW).
  { unfold OVERFLOW. rewrite <- inject_Z_opp, <- !Zlt_Qlt. lia. }
  destruct B as [B1 B2].
  destruct (round64_cases (inject_Z z)) as [[H1 _] | [[H1 _] | (_ & _ & E)]];
    [lra | lra |].
  rewrite E. f_equal.
  rewrite (Qred_complete _ (inject_Z z)).
  - unfold Qred, inject_Z. cbn [Qnum Qden]. pose proof (Z.ggcd_correct_divisors z 1) as D. pose proof (Z.ggcd_gcd z 1) as Gg. rewrite Z.gcd_1_r in Gg. destruct (Z.ggcd z 1) as [g [a b]]. cbn [fst snd] in *. subst g. destruct D as [D1 D2]. rewrite !Z.mul_1_l in *. subst. reflexivity.
  - rewrite (grid64_comp _ (inject_Z z)) by apply Qred_correct. exact G.
Qed.

(** The error of rounding up in the normal range. *)
Lemma round64_relative (q p : Q) :
  pow2 (-1022) <= q -> round64 q = Fin p -> p <= q * (1 + pow2 (-53)).
Proof.
  intros Hq H. destruct (round64_value q p H) as (V & _ & _).
  rewrite V, grid64_pos by (pose proof (pow2_pos (-1022)); lra).
  now apply grid_pos_relative.
Qed.

(** A finite result between two rounded bounds. *)
Lemma round64_between (q l h lo hi : Q) :
  round64 l = Fin lo -> round64 h = Fin hi -> l <= q -> q <= h ->
  exists p, round64 q = Fin p /\ lo <= p /\ p <= hi.
Proof.
  intros Hlo Hhi L H.
  pose proof (round64_mono l q L) as M1.
  pose proof (round64_mono q h H) as M2.
  rewrite Hlo in M1. rewrite Hhi in M2.
  destruct (round64 q) as [p | | |]; cbn [fle] in M1, M2; try contradiction.
  exists p. auto.
Qed.

Lemma round64_opp_Fin (a p : Q) :
  round64 a = Fin p -> round64 (- a) = Fin (- p).
Proof. intros H. now rewrite round64_opp, H. Qed.

(** Some floats of Python: 0.1 and 4046.86; the overflow of
    1e308 * 4046.86; the two ties at the bottom of the range, which go to
    the even neighbour; and the product 3.0 * 0.8, one bit above 2.4. *)
Lemma round64_examples :
  round64 (1 # 10) = Fin (3602879701896397 # 36028797018963968) /\
  round64 (404686 # 100) = Fin (8899139251963167 # 2199023255552) /\
  fmul (round64 (inject_Z (10 ^ 308))) (round64 (404686 # 100)) = PosInf /\
  round64 (pow2 (-1075)) = Fin 0 /\
  round64 (3 * pow2 (-1075)) = Fin (pow2 (-1073)) /\
  fmul (Fin 3) (round64 (8 # 10)) = Fin (1351079888211149 # 562949953421312) /\
  round64 (24 # 10) = Fin (5404319552844595 # 2251799813685248).
Proof. repeat split; vm_compute; reflexivity. Qed.

(** A finite result of rounding that is zero is the zero. *)
Lemma round64_canonical (q p : Q) : round64 q = Fin p -> Qred p = p.
Proof.
  intros H. destruct (round64_Fin q p H) as (-> & _ & _).
  apply Qred_complete, Qred_correct.
Qed.

Lemma round64_canonical_zero (q p : Q) : round64 q = Fin p -> p == 0 -> p = 0.
Proof.
  intros H Z. rewrite <- (round64_canonical q p H).
  now rewrite (Qred_complete p 0 Z).
Qed.

Opaque round64.

(** ** Floats and integers *)

Lemma fgt0_Fin (q : Q) : fgt0 (Fin q) = true <-> 0 < q.
Proof.
  simpl. rewrite negb_true_iff. split.
  - intros H. apply Qnot_le_lt. intros Hle.
    apply Qle_bool_iff in Hle. congruence.
  - intros H. destruct (Qle_bool q 0) eqn:E; trivial.
    apply Qle_bool_iff in E. lra.
Qed.

Lemma fgt0_Fin_false (q : Q) : fgt0 (Fin q) = false <-> q <= 0.
Proof.
  simpl. rewrite negb_false_iff. apply Qle_bool_iff.
Qed.

(** The three shapes of a float that is not missing. *)
Lemma not_nan_cases (x : pyfloat) :
  isna x = false -> (exists a, x = Fin a) \/ x = PosInf \/ x = NegInf.
Proof. destruct x; simpl; eauto; discriminate. Qed.

Lemma round64_shapes (q : Q) :
  (exists a, round64 q = Fin a) \/ round64 q = PosInf \/ round64 q = NegInf.
Proof. apply not_nan_cases, round64_not_nan. Qed.

(** Clipping at zero is [max(0, x)] on the result of an operation, and is
    not below zero. *)
Lemma clip_lower_round64 (q : Q) :
  clip_lower 0 (round64 q) = Spec.max0 (round64 q) /\
  fle (Fin 0) (clip_lower 0 (round64 q)).
Proof.
  destruct (round64_shapes q) as [[a E] | [E | E]]; rewrite E.
  - unfold Spec.max0. simpl.
    destruct (Qlt_le_dec a 0) as [Hlt | Hle].
    + replace (Qle_bool a 0) with true
        by (symmetry; apply Qle_bool_iff; lra).
      simpl. split; [reflexivity | lra].
    + destruct (Qle_bool a 0) eqn:B; simpl.
      * apply Qle_bool_iff in B.
        rewrite (round64_canonical_zero q a E) by lra.
        split; [reflexivity | lra].
      * split; [reflexivity | exact Hle].
  - split; [reflexivity | exact I].
  - split; [reflexivity | simpl; lra].
Qed.

Lemma clip_lower_nonneg (x : pyfloat) :
  isna x = false -> fle (Fin 0) (clip_lower 0 x).
Proof.
  destruct x as [a | | |]; intros H; try discriminate H.
  - simpl. destruct (Qlt_le_dec a 0); simpl; lra.
  - exact I.
  - simpl. lra.
Qed.

(** [int] truncates toward zero. *)
Lemma trunc_nonneg (q : Q) : 0 <= q -> trunc q = Qfloor q.
Proof.
  intros H. destruct q as [n d]. unfold trunc, Qfloor. simpl.
  apply Z.quot_div_nonneg; [| lia].
  unfold Qle in H. simpl in H. lia.
Qed.

Lemma trunc_nonpos (q : Q) : q <= 0 -> trunc q = Qceiling q.
Proof.
  intros H. destruct q as [n d]. unfold trunc, Qceiling, Qfloor. simpl.
  unfold Qle in H. simpl in H.
  rewrite <- (Z.opp_involutive n) at 1.
  rewrite Z.quot_opp_l by lia.
  f_equal. apply Z.quot_div_nonneg; lia.
Qed.

Lemma trunc_inject_Z (q : Q) (z : Z) : q == inject_Z z -> trunc q = z.
Proof.
  destruct q as [n d]. unfold Qeq, trunc. simpl. intros H.
  rewrite Z.mul_1_r in H. subst n. apply Z.quot_mul. lia.
Qed.

Lemma trunc_ge_1 (q : Q) : 1 <= q -> (0 < trunc q)%Z.
Proof.
  intros H. rewrite trunc_nonneg by lra.
  apply Z.lt_le_trans with (Qfloor 1); [reflexivity |].
  now apply Qfloor_resp_le.
Qed.

Lemma trunc_zero (q : Q) : q == 0 -> trunc q = 0%Z.
Proof.
  intros H. apply trunc_inject_Z. exact H.
Qed.

(** ** Columns *)

Lemma nth_error_sub (a b : Series) (i : nat) (x y : pyfloat) :
  nth_error a i = Some x -> nth_error b i = Some y ->
  nth_error (sub a b) i = Some (fsub x y).
Proof.
  revert b i. induction a as [| x0 a IH]; intros [| y0 b] [| i]; simpl;
    try discriminate.
  - now intros [= ->] [= ->].
  - apply IH.
Qed.

(** The float of an integer divisor. *)
Lemma float_of_int_Ok (z : Z) (x : pyfloat) :
  float_of_int z = Ok x <-> exists d, x = Fin d /\ of_int z = Fin d.
Proof.
  unfold float_of_int. split.
  - destruct (of_int z) as [d | | |]; try discriminate.
    intros [= <-]. eauto.
  - intros (d & -> & ->). reflexivity.
Qed.

Lemma float_of_int_pos (z : Z) :
  (0 < z <= 2 ^ 1023)%Z ->
  exists d, float_of_int z = Ok (Fin d) /\ of_int z = Fin d /\ 1 <= d.
Proof.
  intros Hz. unfold float_of_int, of_int.
  assert (L : 1 <= inject_Z z)
    by (change 1 with (inject_Z 1); rewrite <- Zle_Qle; lia).
  assert (H : inject_Z z <= inject_Z (2 ^ 1023)) by (rewrite <- Zle_Qle; lia).
  destruct (round64_between (inject_Z z) 1 (inject_Z (2 ^ 1023)) 1
              (inject_Z (2 ^ 1023))) as (d & E & Ld & _);
    [vm_compute; reflexivity | vm_compute; reflexivity | exact L | exact H |].
  exists d. rewrite E. auto.
Qed.

Lemma float_of_int_neg (z : Z) :
  (- 2 ^ 1023 <= z < 0)%Z ->
  exists d, float_of_int z = Ok (Fin d) /\ of_int z = Fin d /\ d <= - (1).
Proof.
  intros Hz. unfold float_of_int, of_int.
  assert (L : inject_Z z <= - (1))
    by (change (- (1)) with (inject_Z (-1)); rewrite <- Zle_Qle; lia).
  assert (H : inject_Z (- 2 ^ 1023) <= inject_Z z) by (rewrite <- Zle_Qle; lia).
  destruct (round64_between (inject_Z z) (inject_Z (- 2 ^ 1023)) (- (1))
              (inject_Z (- 2 ^ 1023)) (- (1))) as (d & E & _ & Ud);
    [vm_compute; reflexivity | vm_compute; reflexivity | exact H | exact L |].
  exists d. rewrite E. auto.
Qed.

Lemma float_of_int_0 : float_of_int 0 = Ok (Fin 0).
Proof. vm_compute. reflexivity. Qed.

(** The computation, by the float of the divisor. *)
Lemma calculate_Ok (df : DataFrame) (kc fs pc : Q) (divisor : pyfloat) :
  float_of_int (trunc pc * 60) = Ok divisor ->
  let need := mul_scalar (ETo df) (py_float kc) in
  let req := clip 0 (sub need (Rain df)) in
  let liters := mul_scalar (mul_scalar req LITERS_PER_MM_ACRE) (py_float fs) in
  calculate df kc fs pc
  = Ok {| Crop_Water_Need := need; Irrigation_Req := req;
          total_liters := liters;
          Pump_Hours := map (fun x => fdiv x divisor) liters |}.
Proof.
  intros H. unfold calculate, div_int. rewrite H. reflexivity.
Qed.

Lemma calculate_Raise (df : DataFrame) (kc fs pc : Q) (e : exn) :
  float_of_int (trunc pc * 60) = Raise e -> calculate df kc fs pc = Raise e.
Proof.
  intros H. unfold calculate, div_int. rewrite H. reflexivity.
Qed.

Lemma calculate_divisor (df : DataFrame) (kc fs pc : Q) (b : Balance) :
  calculate df kc fs pc = Ok b ->
  exists d, float_of_int (trunc pc * 60) = Ok (Fin d) /\
            of_int (trunc pc * 60) = Fin d.
Proof.
  intros H. destruct (float_of_int (trunc pc * 60)) as [x | e] eqn:E.
  - destruct (proj1 (float_of_int_Ok _ _) E) as (d & -> & Hd). eauto.
  - rewrite (calculate_Raise df kc fs pc e E) in H. discriminate H.
Qed.

(** The four derived columns at a day of the frame. *)
Lemma calculate_at (df : DataFrame) (kc fs pc : Q) (b : Balance)
  (i : nat) (x y : pyfloat) :
  calculate df kc fs pc = Ok b ->
  nth_error (ETo df) i = Some x ->
  nth_error (Rain df) i = Some y ->
  let crop := fmul x (py_float kc) in
  let need := clip_lower 0 (fsub crop y) in
  let volume := fmul (fmul need LITERS_PER_MM_ACRE) (py_float fs) in
  nth_error (Crop_Water_Need b) i = Some crop /\
  nth_error (Irrigation_Req b) i = Some need /\
  nth_error (total_liters b) i = Some volume /\
  nth_error (Pump_Hours b) i = Some (fdiv volume (of_int (trunc pc * 60))).
Proof.
  intros Hb He Hr crop need volume.
  destruct (calculate_divisor df kc fs pc b Hb) as (d & Hd & Hof).
  rewrite (calculate_Ok df kc fs pc (Fin d) Hd) in Hb. injection Hb as <-.
  cbn [Crop_Water_Need Irrigation_Req total_liters Pump_Hours].
  assert (Hneed : nth_error (mul_scalar (ETo df) (py_float kc)) i = Some crop).
  { unfold mul_scalar. now rewrite (map_nth_error _ _ _ He). }
  assert (Hreq : nth_error
                   (clip 0 (sub (mul_scalar (ETo df) (py_float kc)) (Rain df))) i
                 = Some need).
  { unfold clip.
    now rewrite (map_nth_error _ _ _ (nth_error_sub _ _ _ _ _ Hneed Hr)). }
  assert (Hlit : nth_error
                   (mul_scalar
                      (mul_scalar
                         (clip 0 (sub (mul_scalar (ETo df) (py_float kc))
                                      (Rain df)))
                         LITERS_PER_MM_ACRE) (py_float fs)) i
                 = Some volume).
  { unfold mul_scalar at 1 2.
    now rewrite (map_nth_error _ _ _ (map_nth_error _ _ _ Hreq)). }
  repeat (split; [assumption |]).
  rewrite (map_nth_error _ _ _ Hlit), Hof. reflexivity.
Qed.

(** The difference of a product and a number is the result of a rounding,
    or an infinity of the product. *)
Lemma fsub_round64_Fin (q r : Q) :
  (exists s, fsub (round64 q) (Fin r) = round64 s) \/
  fsub (round64 q) (Fin r) = PosInf \/ fsub (round64 q) (Fin r) = NegInf.
Proof.
  destruct (round64_shapes q) as [[a E] | [E | E]]; rewrite E.
  - left. exists (a + - r). reflexivity.
  - right. left. reflexivity.
  - right. right. reflexivity.
Qed.

Lemma clip_lower_fsub (q r : Q) :
  let x := fsub (round64 q) (Fin r) in
  clip_lower 0 x = Spec.max0 x /\ fle (Fin 0) (clip_lower 0 x).
Proof.
  intros x. subst x.
  destruct (fsub_round64_Fin q r) as [[s E] | [E | E]]; rewrite E.
  - apply clip_lower_round64.
  - split; [reflexivity | exact I].
  - split; [reflexivity | simpl; lra].
Qed.

(** ** The water balance (C1) *)

(** C1: with the whole-number pump capacity [z > 0] that the sidebar's
    integer input gives (at most 2^53 - 1), a crop coefficient that is a
    finite float, and at every day whose evapotranspiration [e] and rain [r]
    are numbers, the computation succeeds and produces, in floating-point
    arithmetic, crop_need = e * kc; irrigation_need = max(0, crop_need - r),
    which is not below zero; volume_liters = irrigation_need * 4046.86 *
    field_size; and pump_hours = volume_liters / (pump_capacity * 60).  The
    first two columns are the same in the report script. *)
Theorem water_balance_formulas
  (df : DataFrame) (kc fs pc : Q) (z : Z) (k : Q) (i : nat) (e r : Q) :
  pc == inject_Z z -> (0 < z < 2 ^ 53)%Z ->
  py_float kc = Fin k ->
  nth_error (ETo df) i = Some (Fin e) ->
  nth_error (Rain df) i = Some (Fin r) ->
  let crop_need := fmul (Fin e) (py_float kc) in
  let irrigation_need := Spec.max0 (fsub crop_need (Fin r)) in
  let volume_liters :=
    fmul (fmul irrigation_need (py_float (404686 # 100))) (py_float fs) in
  exists b,
    calculate df kc fs pc = Ok b /\
    nth_error (Crop_Water_Need b) i = Some crop_need /\
    nth_error (Irrigation_Req b) i = Some irrigation_need /\
    fle (Fin 0) irrigation_need /\
    nth_error (total_liters b) i = Some volume_liters /\
    nth_error (Pump_Hours b) i = Some (fdiv volume_liters (of_int (z * 60))) /\
    nth_error (Engine.Crop_Need k (ETo df)) i = Some crop_need /\
    nth_error (Engine.Irrigation_Needed k (ETo df) (Rain df)) i
      = Some irrigation_need.
Proof.
  intros Hpc Hz Hk He Hr crop_need irrigation_need volume_liters.
  pose proof (trunc_inject_Z pc z Hpc) as Htr.
  destruct (float_of_int_pos (z * 60)) as (d & Hd & _ & _); [lia |].
  rewrite <- Htr in Hd.
  pose proof (calculate_Ok df kc fs pc (Fin d) Hd) as Hb. cbv zeta in Hb.
  eexists. split; [exact Hb |].
  destruct (calculate_at df kc fs pc _ i (Fin e) (Fin r) Hb He Hr)
    as (Hneed & Hreq & Hlit & Hpump).
  fold crop_need in Hneed, Hreq, Hlit, Hpump.
  assert (Hclip : clip_lower 0 (fsub crop_need (Fin r)) = irrigation_need /\
                  fle (Fin 0) (clip_lower 0 (fsub crop_need (Fin r)))).
  { unfold irrigation_need, crop_need. rewrite Hk.
    apply (clip_lower_fsub (e * k) r). }
  destruct Hclip as [Hclip Hpos]. rewrite Hclip in *.
  rewrite Htr in Hpump.
  repeat (split; [assumption |]).
  assert (Hneed' : nth_error (Engine.Crop_Need k (ETo df)) i = Some crop_need).
  { unfold Engine.Crop_Need, mul_scalar, crop_need. rewrite Hk.
    rewrite (map_nth_error _ _ _ He). reflexivity. }
  split; [exact Hneed' |].
  unfold Engine.Irrigation_Needed, clip.
  rewrite (map_nth_error _ _ _ (nth_error_sub _ _ _ _ _ Hneed' Hr)).
  rewrite Hclip. reflexivity.
Qed.

(** Scenario C: 5.0 mm of evapotranspiration, Kc 1.1, 2.0 mm of rain, one
    acre, 200 L/min: a need of 3.5 mm. *)
Lemma water_balance_formulas_witness :
  let df := {| Date := ["2025-06-01"%string]; ETo := [Fin 5]; Rain := [Fin 2] |} in
  exists b,
    calculate df (11 # 10) 1 200 = Ok b /\
    nth_error (Irrigation_Req b) 0 = Some (Fin (7 # 2)) /\
    nth_error (Pump_Hours b) 0
      = Some (fdiv (fmul (fmul (Fin (7 # 2)) (py_float (404686 # 100))) (Fin 1))
                   (Fin 12000)).
Proof.
  intros df.
  destruct (water_balance_formulas df (11 # 10) 1 200 200
              Engine.kc_value 0 5 2)
    as (b & Hb & _ & Hreq & _ & _ & Hpump & _ & _);
    [reflexivity | lia | vm_compute; reflexivity | reflexivity | reflexivity |].
  exists b. split; [exact Hb |]. split.
  - rewrite Hreq. vm_compute. reflexivity.
  - rewrite Hpump. vm_compute. reflexivity.
Defined.

(** ** The pump runtime (C2) *)

Lemma Qfloor_bounds (x : Q) (lo hi : Z) :
  inject_Z lo <= x -> x < inject_Z hi -> (lo <= Qfloor x < hi)%Z.
Proof.
  intros Hlo Hhi. split.
  - rewrite <- (Qfloor_Z lo). now apply Qfloor_resp_le.
  - rewrite Zlt_Qlt. apply Qle_lt_trans with x; [apply Qfloor_le | exact Hhi].
Qed.

Lemma fractional_part_bounds (q : Q) :
  0 <= q - inject_Z (Qfloor q) /\ q - inject_Z (Qfloor q) < 1.
Proof.
  pose proof (Qfloor_le q) as Hlo. pose proof (Qlt_floor q) as Hhi.
  rewrite inject_Z_plus in Hhi. change (inject_Z 1) with 1 in Hhi.
  split; lra.
Qed.

(** A positive float is a multiple of a power of two with at most 53
    significant bits. *)
Lemma binary64_shape (q : Q) :
  is_binary64 q -> 0 < q ->
  exists n c, (0 < n < 2 ^ 53)%Z /\ (-1074 <= c)%Z /\ q == inject_Z n * pow2 c.
Proof.
  intros (p & Hp & E) Hq.
  destruct (round64_value q p Hp) as (V & _ & _).
  rewrite grid64_pos in V by exact Hq.
  destruct (grid_pos_shape q Hq) as [Z0 | (n & c & Hn & Hc & G)].
  - lra.
  - exists n, c. split; [exact Hn |]. split; [exact Hc |].
    now rewrite <- E, V.
Qed.

(** The fractional part of a float is at least one bit away from one. *)
Lemma binary64_fraction (q : Q) :
  is_binary64 q -> 0 <= q ->
  q - inject_Z (Qfloor q) <= 1 - pow2 (-53).
Proof.
  intros B Hq. destruct (fractional_part_bounds q) as [Rlo Rhi].
  assert (P53 : pow2 (-53) <= 1 # 2) by (vm_compute; discriminate).
  destruct (Qlt_le_dec 0 q) as [Pq | Zq].
  2:{ assert (E : q == inject_Z 0) by (change (inject_Z 0) with 0; lra).
      rewrite (Qfloor_comp _ _ E), Qfloor_Z. change (inject_Z 0) with 0. lra. }
  destruct (binary64_shape q B Pq) as (n & c & Hn & Hc & E).
  pose proof (pow2_pos c) as Pc.
  destruct (Z_lt_le_dec c (-53)) as [Small | Big].
  - (* below one half: the number is its own fractional part *)
    assert (H2 : inject_Z n < pow2 53).
    { rewrite pow2_Z by lia. rewrite <- Zlt_Qlt. lia. }
    assert (Hhalf : q < 1 # 2).
    { rewrite E. apply Qlt_le_trans with (pow2 53 * pow2 c).
      - apply Qmult_lt_compat_r; lra.
      - rewrite <- pow2_add. change (1 # 2) with (pow2 (-1)).
        apply pow2_le. lia. }
    assert (F : Qfloor q = 0%Z).
    { assert (0 <= Qfloor q < 1)%Z; [| lia].
      apply Qfloor_bounds; [change (inject_Z 0) with 0; lra |].
      change (inject_Z 1) with 1. lra. }
    rewrite F. change (inject_Z 0) with 0. lra.
  - destruct (Z_le_gt_dec 0 c) as [Int | Frac].
    + (* an integer *)
      assert (Ez : q == inject_Z (n * 2 ^ c)).
      { rewrite E, inject_Z_mult, <- pow2_Z by lia. reflexivity. }
      rewrite (Qfloor_comp _ _ Ez), Qfloor_Z. lra.
    + set (m := (- c)%Z). set (r := q - inject_Z (Qfloor q)) in *.
      pose proof (pow2_pos m) as Pm.
      assert (Ek : r * pow2 m == inject_Z (n - Qfloor q * 2 ^ m)).
      { unfold r. generalize (Qfloor q). intros f.
        unfold Zminus. rewrite inject_Z_plus, inject_Z_opp, inject_Z_mult.
        rewrite <- (pow2_Z m) by (unfold m; lia).
        rewrite E. unfold m.
        assert (C : pow2 c * pow2 (- c) == 1)
          by (rewrite Qmult_comm; apply pow2_cancel).
        setoid_replace ((inject_Z n * pow2 c - inject_Z f) * pow2 (- c))
          with (inject_Z n * (pow2 c * pow2 (- c))
                - inject_Z f * pow2 (- c)) by ring.
        rewrite C. ring. }
      assert (Hk : (n - Qfloor q * 2 ^ m < 2 ^ m)%Z).
      { rewrite Zlt_Qlt, <- Ek, <- pow2_Z by (unfold m; lia).
        setoid_replace (pow2 m) with (1 * pow2 m) at 2 by ring.
        apply Qmult_lt_compat_r; lra. }
      assert (Hk' : inject_Z (n - Qfloor q * 2 ^ m) <= pow2 m - 1).
      { assert (Z1 : (n - Qfloor q * 2 ^ m + 1 <= 2 ^ m)%Z) by lia.
        rewrite Zle_Qle, inject_Z_plus in Z1. change (inject_Z 1) with 1 in Z1.
        rewrite pow2_Z by (unfold m; lia). lra. }
      rewrite <- Ek in Hk'.
      assert (Hr : r <= 1 - pow2 (- m)).
      { assert (C : pow2 (- m) * pow2 m == 1) by apply pow2_cancel.
        pose proof (pow2_pos (- m)) as Pm'.
        apply Qmult_le_r with (pow2 m); [exact Pm |].
        setoid_replace ((1 - pow2 (- m)) * pow2 m)
          with (pow2 m - pow2 (- m) * pow2 m) by ring.
        rewrite C. exact Hk'. }
      assert (pow2 (-53) <= pow2 (- m)) by (apply pow2_le; unfold m; lia).
      lra.
Qed.

Lemma fmod1_nonneg (q : Q) :
  0 <= q -> fmod1 (Fin q) = Fin (Qred (q - inject_Z (Qfloor q))).
Proof.
  intros Hq. unfold fmod1. rewrite (trunc_nonneg q Hq).
  destruct (fractional_part_bounds q) as [Hlo _].
  destruct (Qlt_le_dec _ 0) as [Neg | _]; [| reflexivity].
  rewrite Qred_correct in Neg. lra.
Qed.

(** C2, as the claim states it, fails at its own example: for the
    pump_hours that the code computes from 3.5 mm, one acre and 200 L/min,
    the code reports 1 hour 10 minutes, where rounding the minutes to the
    nearest integer gives 11; the same holds for the exact quotient
    14164.01 / 12000. *)
Lemma scenario_C_minutes_truncated :
  let volume := fmul (fmul (Fin (35 # 10)) LITERS_PER_MM_ACRE) (py_float 1) in
  exists pump_hours,
    fdiv volume (of_int (200 * 60)) = Fin pump_hours /\
    pump_runtime (Fin pump_hours) = Ok (1, 10)%Z /\
    Spec.pump_split pump_hours = (1, 11)%Z /\
    pump_runtime (Fin ((1416401 # 100) / 12000)) = Ok (1, 10)%Z /\
    Spec.pump_split ((1416401 # 100) / 12000) = (1, 11)%Z.
Proof.
  eexists. split; [vm_compute; reflexivity |].
  repeat split; vm_compute; reflexivity.
Qed.

(** C2 (amended): for a pump_hours that is a non-negative float, the
    runtime is split as hours = floor(pump_hours) and minutes = floor(p),
    where [p] is the floating-point product (pump_hours - hours) * 60; the
    minutes are truncated, never rounded up to the next minute, and lie
    between 0 and 59. *)
Theorem pump_runtime_split (q : Q) :
  0 <= q -> is_binary64 q ->
  exists p,
    round64 ((q - inject_Z (Qfloor q)) * 60) = Fin p /\
    pump_runtime (Fin q) = Ok (Qfloor q, Qfloor p) /\
    (0 <= Qfloor p <= 59)%Z.
Proof.
  intros Hq B.
  destruct (fractional_part_bounds q) as [Hlo Hhi].
  pose proof (binary64_fraction q B Hq) as Hfrac.
  set (x := (q - inject_Z (Qfloor q)) * 60) in *.
  assert (X1 : x <= 60 * (1 - pow2 (-53))).
  { unfold x. revert Hfrac. generalize (pow2 (-53)). intros u Hfrac. lra. }
  clear Hfrac.
  assert (X0 : 0 <= x) by (unfold x; lra).
  pose proof (round64_mono 0 x X0) as Lo.
  pose proof (round64_mono x (60 * (1 - pow2 (-53))) X1) as Hi.
  rewrite round64_0 in Lo.
  replace (round64 (60 * (1 - pow2 (-53))))
    with (Fin (60 - pow2 (-47))) in Hi by (vm_compute; reflexivity).
  destruct (round64 x) as [p | | |] eqn:E; cbn [fle] in Lo, Hi;
    try contradiction.
  exists p. split; [reflexivity |].
  assert (P47 : 0 < pow2 (-47)) by apply pow2_pos.
  split.
  - unfold pump_runtime. rewrite (fmod1_nonneg q Hq).
    cbn [py_int rbind fmul].
    rewrite (round64_comp _ x) by (unfold x; now rewrite Qred_correct).
    rewrite E. cbn [py_int rbind].
    rewrite (trunc_nonneg q Hq), (trunc_nonneg p Lo). reflexivity.
  - assert (0 <= Qfloor p < 60)%Z; [| lia].
    apply Qfloor_bounds.
    + change (inject_Z 0) with 0. lra.
    + change (inject_Z 60) with 60. lra.
Qed.

(** The pump_hours of scenario C, 1.1803341666666667, is shown as 1h 10m;
    0.3 hours are shown as 0h 18m, the product 0.3 * 60 being the float
    18.0. *)
Lemma pump_runtime_split_witness :
  let pump_hours := 5315752513172665 # 4503599627370496 in
  let three_tenths := 5404319552844595 # 18014398509481984 in
  pump_runtime (Fin pump_hours) = Ok (1, 10)%Z /\
  pump_runtime (Fin three_tenths) = Ok (0, 18)%Z.
Proof.
  intros pump_hours three_tenths.
  assert (B : forall q p, round64 q = Fin p -> p == q -> is_binary64 q)
    by (intros q p H E; exists p; now split).
  destruct (pump_runtime_split pump_hours) as (p & Hp & Hrun & _).
  { vm_compute. discriminate. }
  { eapply B; [vm_compute; reflexivity | reflexivity]. }
  destruct (pump_runtime_split three_tenths) as (p' & Hp' & Hrun' & _).
  { vm_compute. discriminate. }
  { eapply B; [vm_compute; reflexivity | reflexivity]. }
  split.
  - rewrite Hrun. f_equal.
    assert (E : Fin p = Fin (1522786660879067 # 140737488355328))
      by (rewrite <- Hp; vm_compute; reflexivity).
    injection E as ->. reflexivity.
  - rewrite Hrun'. f_equal.
    assert (E : Fin p' = Fin 18)
      by (rewrite <- Hp'; vm_compute; reflexivity).
    injection E as ->. reflexivity.
Defined.

(** ** The weather client (C4, C5, C6) *)

Lemma to_datetime_raises (time : list time_entry) (e : exn) :
  to_datetime time = Raise e ->
  e = ValueError "Unknown datetime string format".
Proof.
  induction time as [| [day | text] rest IH]; simpl.
  - discriminate.
  - destruct (to_datetime rest) as [days | e']; simpl; [discriminate |].
    intros [= <-]. now apply IH.
  - now intros [= <-].
Qed.

Lemma to_datetime_parseable (time : list time_entry) :
  forallb (fun t => match t with
                    | Parseable _ => true
                    | Unparseable _ => false
                    end) time = true <->
  exists days, to_datetime time = Ok days.
Proof.
  induction time as [| [day | text] rest IH]; simpl.
  - split; [intros _; now exists [] | reflexivity].
  - rewrite IH. split.
    + intros [days ->]. simpl. eauto.
    + destruct (to_datetime rest) as [days | e]; [eauto | intros [d H]; discriminate].
  - split; [discriminate | intros [d H]; discriminate].
Qed.

Lemma to_datetime_length (time : list time_entry) (days : list string) :
  to_datetime time = Ok days -> List.length days = List.length time.
Proof.
  revert days. induction time as [| [day | text] rest IH]; simpl; intros days.
  - now intros [= <-].
  - destruct (to_datetime rest) as [ds | e]; simpl; [| discriminate].
    intros [= <-]. simpl. now rewrite (IH ds).
  - discriminate.
Qed.

(** What building the frame raises: the KeyError of a missing key or a
    ValueError, of the frame's constructor or of the dates. *)
Lemma build_frame_errors (data : option daily_json) (e : exn) :
  build_frame data = Raise e ->
  (exists key, e = KeyError key) \/ (exists msg, e = ValueError msg).
Proof.
  unfold build_frame.
  destruct data as [[[time |] [et0 |] [rain |]] |]; simpl;
    try (intros [= <-]; left; eexists; reflexivity).
  destruct (_ && _)%bool.
  - destruct (to_datetime time) as [days | e'] eqn:E; simpl; [discriminate |].
    intros [= <-]. right. rewrite (to_datetime_raises _ _ E). eauto.
  - intros [= <-]. right. eauto.
Qed.

Lemma build_frame_raises (data : option daily_json) (e : exn) :
  build_frame data = Raise e -> is_request_exception e = false.
Proof.
  intros H.
  destruct (build_frame_errors data e H) as [[key ->] | [msg ->]]; reflexivity.
Qed.

Lemma build_frame_shape (data : option daily_json) :
  Spec.expected_shape data = false <-> exists e, build_frame data = Raise e.
Proof.
  unfold build_frame, Spec.expected_shape.
  destruct data as [[[time |] [et0 |] [rain |]] |]; simpl;
    try (split; [intros _; eexists; reflexivity | reflexivity]).
  destruct ((List.length time =? List.length et0)
            && (List.length time =? List.length rain))%nat; simpl.
  - pose proof (to_datetime_parseable time) as P.
    destruct (forallb _ time).
    + destruct (proj1 P eq_refl) as [days ->]. simpl.
      split; [discriminate | intros [e He]; discriminate He].
    + destruct (to_datetime time) as [days | e]; simpl.
      * assert (false = true) by (apply P; eauto). discriminate.
      * split; [intros _; eauto | reflexivity].
  - split; [intros _; eexists; reflexivity | reflexivity].
Qed.

Lemma error_status (code : Z) :
  (400 <= code < 600)%Z ->
  raise_for_status code = Raise (RequestException (HTTPError code)).
Proof.
  intros H. unfold raise_for_status.
  replace ((400 <=? code) && (code <? 600))%Z with true; [reflexivity |].
  symmetry. apply andb_true_iff. split; [apply Z.leb_le | apply Z.ltb_lt]; lia.
Qed.

Lemma good_status (code : Z) :
  (code < 400 \/ 600 <= code)%Z -> raise_for_status code = Ok tt.
Proof.
  intros H. unfold raise_for_status.
  replace ((400 <=? code) && (code <? 600))%Z with false; [reflexivity |].
  symmetry. apply andb_false_iff.
  destruct H; [left; apply Z.leb_gt | right; apply Z.ltb_ge]; lia.
Qed.

Lemma status_cases (code : Z) :
  (400 <= code < 600)%Z \/ (code < 400 \/ 600 <= code)%Z.
Proof. lia. Qed.

Lemma attempt_once_error_status (code : Z) (body : response_body) :
  (400 <= code < 600)%Z ->
  attempt_once (Response code body) = Raise (RequestException (HTTPError code)).
Proof.
  intros H. simpl. rewrite (error_status code H).
  now destruct (code =? 429)%Z.
Qed.

Lemma attempt_once_good_status (code : Z) (body : response_body) :
  (code < 400 \/ 600 <= code)%Z ->
  attempt_once (Response code body) = rbind (json body) build_frame.
Proof.
  intros H. simpl. rewrite (good_status code H).
  now destruct (code =? 429)%Z.
Qed.

(** Which answers the loop takes for a transient failure: [requests.get]
    raised, or the status is a 4xx or a 5xx, or the body is not JSON. *)
Lemma attempt_once_request_exception (reply : net_reply) (e : request_error) :
  attempt_once reply = Raise (RequestException e) <->
  reply = GetRaises e \/
  (exists code body, reply = Response code body /\
                     (400 <= code < 600)%Z /\ e = HTTPError code) \/
  (exists code, reply = Response code NotJson /\
                (code < 400 \/ 600 <= code)%Z /\ e = JSONDecodeError).
Proof.
  split.
  - destruct reply as [e' | code body].
    + simpl. intros [= ->]. now left.
    + intros H. right. destruct (status_cases code) as [Bad | Good].
      * left. exists code, body. split; [reflexivity |]. split; [exact Bad |].
        rewrite (attempt_once_error_status code body Bad) in H.
        now injection H as <-.
      * right. rewrite (attempt_once_good_status code body Good) in H.
        destruct body as [| data]; simpl in H.
        -- injection H as <-. exists code. now repeat split.
        -- apply build_frame_raises in H. discriminate.
  - intros [-> | [(code & body & -> & Hc & ->) | (code & -> & Hc & ->)]].
    + reflexivity.
    + now apply attempt_once_error_status.
    + now rewrite attempt_once_good_status.
Qed.

(** One turn of the loop, by the outcome of its attempt. *)
Lemma retry_loop_ok net a rest df :
  attempt_once (net a) = Ok df ->
  retry_loop net (a :: rest) = ([HttpGet a], Ok df).
Proof. intros H. simpl. rewrite H. reflexivity. Qed.

Lemma retry_loop_transient net a rest e :
  attempt_once (net a) = Raise (RequestException e) ->
  retry_loop net (a :: rest)
  = (HttpGet a :: Sleep (2 ^ Z.of_nat a) :: fst (retry_loop net rest),
     snd (retry_loop net rest)).
Proof.
  intros H. simpl. rewrite H. simpl.
  destruct (retry_loop net rest) as [t [df | e']]; reflexivity.
Qed.

Lemma retry_loop_fatal net a rest e :
  attempt_once (net a) = Raise e -> is_request_exception e = false ->
  retry_loop net (a :: rest) = ([HttpGet a], Raise e).
Proof.
  intros H He. simpl. rewrite H.
  destruct e; try reflexivity. discriminate.
Qed.

Lemma three_failures (net : nat -> net_reply) :
  (forall k, (k < 3)%nat ->
     exists e, attempt_once (net k) = Raise (RequestException e)) ->
  get_weather_data_safe net
  = ([HttpGet 0; Sleep 1; HttpGet 1; Sleep 2; HttpGet 2; Sleep 4; StErrorBusy],
     Ok empty_frame).
Proof.
  intros H.
  destruct (H 0%nat) as [e0 H0]; [lia |].
  destruct (H 1%nat) as [e1 H1]; [lia |].
  destruct (H 2%nat) as [e2 H2]; [lia |].
  unfold get_weather_data_safe. simpl seq.
  rewrite (retry_loop_transient _ _ _ _ H0).
  rewrite (retry_loop_transient _ _ _ _ H1).
  rewrite (retry_loop_transient _ _ _ _ H2).
  reflexivity.
Qed.

(** C4: the fetch makes at most 3 attempts; the delay slept after the
    failure of attempt [n] is 2^n seconds, so the delays of a run are the
    first [k] of 1s, 2s, 4s for its [k] failed attempts; and a fetch that
    fails twice and succeeds on the third attempt returns the result of the
    third attempt after exactly the two delays 1s and 2s. *)
Theorem retry_with_backoff (net : nat -> net_reply) :
  let t := fst (get_weather_data_safe net) in
  (requests_made t <= 3)%nat /\
  (exists k, (k <= 3)%nat /\
             sleeps t = firstn k [1; 2; 4]%Z /\
             sleeps t = map (fun n => 2 ^ Z.of_nat n)%Z (seq 0 k) /\
             requests_made t = Nat.min (S k) 3) /\
  (forall e0 e1 df,
      attempt_once (net 0%nat) = Raise (RequestException e0) ->
      attempt_once (net 1%nat) = Raise (RequestException e1) ->
      attempt_once (net 2%nat) = Ok df ->
      get_weather_data_safe net
      = ([HttpGet 0; Sleep 1; HttpGet 1; Sleep 2; HttpGet 2], Ok df) /\
      sleeps (fst (get_weather_data_safe net)) = [1; 2]%Z).
Proof.
  unfold get_weather_data_safe. simpl seq.
  assert (Hcases : forall a rest,
            (exists df, retry_loop net (a :: rest) = ([HttpGet a], Ok df)) \/
            (exists e, retry_loop net (a :: rest) = ([HttpGet a], Raise e)) \/
            retry_loop net (a :: rest)
            = (HttpGet a :: Sleep (2 ^ Z.of_nat a) :: fst (retry_loop net rest),
               snd (retry_loop net rest))).
  { intros a rest. destruct (attempt_once (net a)) as [df | e] eqn:E.
    - left. exists df. now apply retry_loop_ok.
    - destruct (is_request_exception e) eqn:Ee.
      + right. right. destruct e; try discriminate.
        now apply retry_loop_transient with (e := e).
      + right. left. exists e. now apply retry_loop_fatal. }
  split; [| split].
  - destruct (Hcases 0%nat [1; 2]%nat) as [[df ->] | [[e ->] | ->]];
      [count_trace | count_trace |].
    destruct (Hcases 1%nat [2]%nat) as [[df ->] | [[e ->] | ->]];
      [count_trace | count_trace |].
    destruct (Hcases 2%nat []) as [[df ->] | [[e ->] | ->]]; count_trace.
  - destruct (Hcases 0%nat [1; 2]%nat) as [[df ->] | [[e ->] | ->]];
      [exists 0%nat; count_trace | exists 0%nat; count_trace |].
    destruct (Hcases 1%nat [2]%nat) as [[df ->] | [[e ->] | ->]];
      [exists 1%nat; count_trace | exists 1%nat; count_trace |].
    destruct (Hcases 2%nat []) as [[df ->] | [[e ->] | ->]];
      [exists 2%nat | exists 2%nat | exists 3%nat]; count_trace.
  - intros e0 e1 df H0 H1 H2.
    rewrite (retry_loop_transient _ _ _ _ H0).
    rewrite (retry_loop_transient _ _ _ _ H1).
    rewrite (retry_loop_ok _ _ _ _ H2).
    split; reflexivity.
Qed.

(** A connection that times out twice and then answers. *)
Lemma retry_with_backoff_witness :
  let good :=
    Response 200
      (Json (Some {| j_time := Some [Parseable "2025-06-01"];
                     j_et0_fao_evapotranspiration := Some [Some 5];
                     j_precipitation_sum := Some [None] |})) in
  let net := fun n : nat =>
               match n with
               | 0%nat | 1%nat => GetRaises ReadTimeout
               | _ => good
               end in
  get_weather_data_safe net
  = ([HttpGet 0; Sleep 1; HttpGet 1; Sleep 2; HttpGet 2],
     Ok {| Date := ["2025-06-01"%string]; ETo := [Fin 5]; Rain := [Fin 0] |}).
Proof.
  intros good net.
  assert (H2 : attempt_once (net 2%nat)
               = Ok {| Date := ["2025-06-01"%string];
                       ETo := [Fin 5]; Rain := [Fin 0] |})
    by (vm_compute; reflexivity).
  exact (proj1 (proj2 (proj2 (retry_with_backoff net))
                 ReadTimeout ReadTimeout _ eq_refl eq_refl H2)).
Defined.

(** C5: the code departs from the claim on an HTTP 4xx status that is not
    the rate-limit signal.  A 404 on every attempt, whatever the body, is
    caught by the handler of the request exceptions: it is tried three
    times, with the three delays, and the fetch then returns the empty
    frame after the "busy" message instead of failing at once.  A body that
    is not JSON, under status 200, is retried in the same way. *)
Theorem not_found_is_retried :
  (forall body,
     attempt_once (Response 404 body)
     = Raise (RequestException (HTTPError 404)) /\
     get_weather_data_safe (fun _ => Response 404 body)
     = ([HttpGet 0; Sleep 1; HttpGet 1; Sleep 2; HttpGet 2; Sleep 4;
         StErrorBusy], Ok empty_frame)) /\
  get_weather_data_safe (fun _ => Response 200 NotJson)
  = ([HttpGet 0; Sleep 1; HttpGet 1; Sleep 2; HttpGet 2; Sleep 4; StErrorBusy],
     Ok empty_frame).
Proof.
  split; [| reflexivity].
  intros body. split; reflexivity.
Qed.

(** C6: when all three attempts fail with a request exception, the fetch
    returns the empty frame and raises nothing; on that frame the audit
    does nothing more: its trace is the trace of the fetch, with no metric,
    no chart, no status and no error of the calculation, and it reports no
    status. *)
Theorem unavailable_weather_suppresses_audit
  (net : nat -> net_reply) (kc fs pc : Q) :
  (forall k, (k < 3)%nat ->
     exists e, attempt_once (net k) = Raise (RequestException e)) ->
  get_weather_data_safe net
  = ([HttpGet 0; Sleep 1; HttpGet 1; Sleep 2; HttpGet 2; Sleep 4; StErrorBusy],
     Ok empty_frame) /\
  empty empty_frame = true /\
  run_audit net kc fs pc = (fst (get_weather_data_safe net), Ok tt) /\
  reported_statuses (fst (run_audit net kc fs pc)) = [].
Proof.
  intros H. pose proof (three_failures net H) as Hf.
  split; [exact Hf |]. split; [reflexivity |].
  unfold run_audit. rewrite Hf. split; reflexivity.
Qed.

(** Three refused connections. *)
Lemma unavailable_weather_suppresses_audit_witness :
  run_audit (fun _ => GetRaises ConnectionError) (11 # 10) 1 200
  = ([HttpGet 0; Sleep 1; HttpGet 1; Sleep 2; HttpGet 2; Sleep 4; StErrorBusy],
     Ok tt).
Proof.
  destruct (unavailable_weather_suppresses_audit
              (fun _ => GetRaises ConnectionError) (11 # 10) 1 200)
    as (Hf & _ & Hrun & _).
  - intros k _. exists ConnectionError. reflexivity.
  - rewrite Hrun, Hf. reflexivity.
Defined.

(** ** Cleaning (C7) *)

Lemma to_numeric_app (l1 l2 : list (option Q)) :
  to_numeric (l1 ++ l2) = to_numeric l1 ++ to_numeric l2.
Proof. apply map_app. Qed.

Lemma to_numeric_gap (k : nat) : to_numeric (repeat None k) = repeat NaN k.
Proof. induction k as [| k IH]; simpl; [| rewrite <- IH]; reflexivity. Qed.

Lemma interp_after_length (l : Series) :
  forall prev, List.length (interp_after prev l) = List.length l.
Proof.
  induction l as [| x t IH]; intros prev; simpl; [reflexivity |].
  destruct (isna x); [destruct prev as [[dl a] |] |]; simpl; now rewrite IH.
Qed.

Lemma first_valid_gap (k : nat) (x : pyfloat) (post : Series) :
  isna x = false -> first_valid (repeat NaN k ++ x :: post) = Some (k, x).
Proof.
  intros Hx. induction k as [| k IH]; simpl.
  - now rewrite Hx.
  - now rewrite IH.
Qed.

Lemma first_valid_none (k : nat) : first_valid (repeat NaN k) = None.
Proof. induction k as [| k IH]; simpl; [| rewrite IH]; reflexivity. Qed.

Lemma first_valid_In (l : Series) (d : nat) (v : pyfloat) :
  first_valid l = Some (d, v) ->
  In v l /\ isna v = false /\ (d < List.length l)%nat.
Proof.
  revert d. induction l as [| x t IH]; intros d; simpl; [discriminate |].
  destruct (isna x) eqn:Hx.
  - destruct (first_valid t) as [[d' v'] |]; [| discriminate].
    intros [= <- <-]. destruct (IH d' eq_refl) as (Hin & Hv & Hd).
    repeat split; auto. lia.
  - intros [= <- <-]. repeat split; auto. lia.
Qed.

(** Valid values are left alone. *)
Lemma interp_after_valid (l : Series) (i : nat) (x : pyfloat) :
  forall prev,
    nth_error l i = Some x -> isna x = false ->
    nth_error (interp_after prev l) i = Some x.
Proof.
  revert i. induction l as [| y t IH]; intros [| i] prev; simpl;
    try discriminate.
  - intros [= ->] Hx. now rewrite Hx.
  - intros Hi Hx.
    destruct (isna y); [destruct prev as [[dl a] |] |]; simpl; now apply IH.
Qed.

(** What comes before a valid value does not matter after it. *)
Lemma interp_after_skip (pre : Series) (x : pyfloat) (rest : Series) (j : nat) :
  forall prev,
    isna x = false ->
    nth_error (interp_after prev (pre ++ x :: rest)) (List.length pre + 1 + j)
    = nth_error (interp_after (Some (1%nat, x)) rest) j.
Proof.
  induction pre as [| y pre IH]; intros prev Hx; simpl.
  - now rewrite Hx.
  - destruct (isna y); [destruct prev as [[dl a] |] |]; simpl; now apply IH.
Qed.

(** Inside a gap that is closed by a valid value: [np.interp] between the
    two ends. *)
Lemma interp_after_interior (a b : pyfloat) (post : Series) (k : nat) :
  forall dl j,
    (j < k)%nat -> isna b = false ->
    nth_error (interp_after (Some (dl, a)) (repeat NaN k ++ b :: post)) j
    = Some (np_interp a b (dl + j) (dl + k)).
Proof.
  induction k as [| k IH]; intros dl j Hj Hb; [lia |].
  simpl. rewrite (first_valid_gap k b post Hb).
  destruct j as [| j]; simpl.
  - now rewrite Nat.add_0_r.
  - rewrite IH by (trivial; lia).
    now rewrite <- !Nat.add_succ_comm.
Qed.

(** Inside a gap that runs to the end: the last valid value. *)
Lemma interp_after_trailing (a : pyfloat) (k : nat) :
  forall dl j,
    (j < k)%nat ->
    nth_error (interp_after (Some (dl, a)) (repeat NaN k)) j = Some a.
Proof.
  induction k as [| k IH]; intros dl j Hj; [lia |].
  simpl. rewrite first_valid_none.
  destruct j as [| j]; simpl; [reflexivity |].
  apply IH. lia.
Qed.

(** Before the first valid value: still missing. *)
Lemma interp_after_leading (rest : Series) (k : nat) :
  forall j,
    (j < k)%nat ->
    nth_error (interp_after None (repeat NaN k ++ rest)) j = Some NaN.
Proof.
  induction k as [| k IH]; intros j Hj; [lia |].
  simpl. destruct j as [| j]; simpl; [reflexivity |].
  apply IH. lia.
Qed.

Lemma inject_nat_pos (n : nat) : (0 < n)%nat -> 0 < inject_Z (Z.of_nat n).
Proof. intros H. change 0 with (inject_Z 0). rewrite <- Zlt_Qlt. lia. Qed.

Lemma inject_nat_le (n m : nat) :
  (n <= m)%nat -> inject_Z (Z.of_nat n) <= inject_Z (Z.of_nat m).
Proof. intros H. rewrite <- Zle_Qle. lia. Qed.

(** *** Which operations keep a float a number or an infinity *)

Lemma fadd_Fin_not_nan (x : pyfloat) (a : Q) :
  isna x = false -> isna (fadd x (Fin a)) = false.
Proof.
  destruct x as [b | | |]; simpl; try discriminate; intros _;
    [apply round64_not_nan | reflexivity | reflexivity].
Qed.

Lemma inf_signed_pos (d : Q) (pos : bool) :
  0 < d -> inf_signed d pos = if pos then PosInf else NegInf.
Proof.
  intros H. unfold inf_signed.
  destruct (Qcompare_spec d 0) as [E | L | G]; [lra | lra | reflexivity].
Qed.

Lemma inf_signed_neg (d : Q) (pos : bool) :
  d < 0 -> inf_signed d pos = if pos then NegInf else PosInf.
Proof.
  intros H. unfold inf_signed.
  destruct (Qcompare_spec d 0) as [E | L | G]; [lra | reflexivity | lra].
Qed.

Lemma fmul_pos_not_nan (x : pyfloat) (d : Q) :
  0 < d -> isna x = false -> isna (fmul x (Fin d)) = false.
Proof.
  intros Hd. destruct x as [b | | |]; simpl; try discriminate; intros _.
  - apply round64_not_nan.
  - now rewrite inf_signed_pos.
  - now rewrite inf_signed_pos.
Qed.

Lemma fdiv_Fin_pos (a g : Q) : 0 < g -> fdiv (Fin a) (Fin g) = round64 (a / g).
Proof.
  intros H. simpl.
  destruct (Qcompare_spec g 0) as [E | L | G]; [lra | lra | reflexivity].
Qed.

Lemma fdiv_inf_pos (g : Q) :
  0 < g -> fdiv PosInf (Fin g) = PosInf /\ fdiv NegInf (Fin g) = NegInf.
Proof.
  intros H. simpl.
  replace (Qle_bool 0 g) with true by (symmetry; apply Qle_bool_iff; lra).
  now split.
Qed.

Lemma fdiv_pos_not_nan (x : pyfloat) (g : Q) :
  0 < g -> isna x = false -> isna (fdiv x (Fin g)) = false.
Proof.
  intros Hg. destruct (fdiv_inf_pos g Hg) as [E1 E2].
  destruct x as [b | | |]; try discriminate; intros _.
  - rewrite fdiv_Fin_pos by exact Hg. apply round64_not_nan.
  - now rewrite E1.
  - now rewrite E2.
Qed.

(** Between two numbers [np.interp] takes its first formula, the line from
    the left end. *)
Lemma np_interp_Fin (a b : Q) (d g : nat) :
  (0 < d)%nat -> (0 < g)%nat ->
  np_interp (Fin a) (Fin b) d g
  = fadd (fmul (fdiv (fsub (Fin b) (Fin a)) (of_nat g)) (of_nat d)) (Fin a) /\
  isna (np_interp (Fin a) (Fin b) d g) = false.
Proof.
  intros Hd Hg.
  assert (N : isna (fadd (fmul (fdiv (fsub (Fin b) (Fin a)) (of_nat g))
                               (of_nat d)) (Fin a)) = false).
  { apply fadd_Fin_not_nan, fmul_pos_not_nan; [now apply inject_nat_pos |].
    apply fdiv_pos_not_nan; [now apply inject_nat_pos |].
    apply round64_not_nan. }
  unfold np_interp. cbv zeta. rewrite N. split; [reflexivity | exact N].
Qed.

(** *** Signs *)

Lemma nonneg_not_nan (x : pyfloat) : nonneg x -> isna x = false.
Proof. destruct x; simpl; trivial; contradiction. Qed.

Lemma nonneg_cases (x : pyfloat) :
  nonneg x -> x = PosInf \/ exists a, x = Fin a /\ 0 <= a.
Proof.
  destruct x as [a | | |]; simpl; try contradiction; eauto.
Qed.

Lemma nonneg_fadd (x y : pyfloat) : nonneg x -> nonneg y -> nonneg (fadd x y).
Proof.
  intros Hx Hy.
  destruct (nonneg_cases x Hx) as [-> | (a & -> & Ha)];
  destruct (nonneg_cases y Hy) as [-> | (b & -> & Hb)]; simpl; trivial.
  apply round64_nonneg. lra.
Qed.

Lemma nonneg_fmul_pos (x : pyfloat) (d : Q) :
  nonneg x -> 0 < d -> nonneg (fmul x (Fin d)).
Proof.
  intros Hx Hd.
  destruct (nonneg_cases x Hx) as [-> | (a & -> & Ha)]; simpl.
  - now rewrite inf_signed_pos.
  - apply round64_nonneg. nra.
Qed.

Lemma nonneg_fdiv_pos (x : pyfloat) (g : Q) :
  nonneg x -> 0 < g -> nonneg (fdiv x (Fin g)).
Proof.
  intros Hx Hg.
  destruct (nonneg_cases x Hx) as [-> | (a & -> & Ha)].
  - now rewrite (proj1 (fdiv_inf_pos g Hg)).
  - rewrite fdiv_Fin_pos by exact Hg. apply round64_nonneg.
    apply Qle_shift_div_l; lra.
Qed.

(** The line from a float [A] down to a smaller one does not go below
    zero, as long as the slope does not underflow. *)
Lemma interp_down_nonneg (A B : Q) (d g : nat) :
  round64 A = Fin A -> 0 <= B -> B <= A -> pow2 (-1000) <= A ->
  (0 < d < g)%nat -> (Z.of_nat g <= 2 ^ 22)%Z ->
  nonneg (fadd (fmul (fdiv (fsub (Fin B) (Fin A)) (of_nat g)) (of_nat d))
               (Fin A)).
Proof.
  intros HA HB HBA Hbig Hd Hg.
  pose proof (round64_opp_Fin A A HA) as HnA.
  pose proof (pow2_pos (-1000)) as P1000.
  assert (HA0 : 0 < A) by lra.
  unfold of_nat.
  set (G := inject_Z (Z.of_nat g)). set (D := inject_Z (Z.of_nat d)).
  assert (HG : 0 < G) by (apply inject_nat_pos; lia).
  assert (HD : 0 < D) by (apply inject_nat_pos; lia).
  assert (HDG : D + 1 <= G).
  { unfold D, G. change 1 with (inject_Z 1).
    rewrite <- inject_Z_plus, <- Zle_Qle. lia. }
  assert (HG22 : G <= pow2 22).
  { unfold G. rewrite pow2_Z by lia. rewrite <- Zle_Qle. exact Hg. }
  assert (Hc : 0 < A / G) by (apply Qlt_shift_div_l; lra).
  assert (HcG : A / G * G == A) by (field; lra).
  (* the difference *)
  destruct (round64_between (B + - A) (- A) 0 _ _ HnA round64_0)
    as (s & Es & Ls & Us); [lra | lra |].
  (* the slope of the whole drop, rounded *)
  assert (Hquot : pow2 (-1022) <= A / G).
  { apply Qle_shift_div_l; [exact HG |].
    apply Qle_trans with (pow2 (-1022) * pow2 22).
    - apply Qmult_le_l; [apply pow2_pos | exact HG22].
    - rewrite <- pow2_add. exact Hbig. }
  assert (HquotA : A / G <= A).
  { apply Qle_shift_div_r; [exact HG |]. assert (1 <= G) by lra. nra. }
  destruct (round64_between (A / G) 0 A _ _ round64_0 HA)
    as (w & Ew & Lw & Uw); [lra | exact HquotA |].
  pose proof (round64_relative (A / G) w Hquot Ew) as Rw.
  (* the slope *)
  assert (Q1 : - (A / G) <= s / G).
  { apply Qle_shift_div_l; [exact HG |].
    setoid_replace (- (A / G) * G) with (- (A / G * G)) by ring.
    rewrite HcG. exact Ls. }
  assert (Q2 : s / G <= 0).
  { apply Qle_shift_div_r; [exact HG |]. lra. }
  destruct (round64_between (s / G) (- (A / G)) 0 _ _
              (round64_opp_Fin _ _ Ew) round64_0 Q1 Q2)
    as (m & Em & Lm & Um).
  (* the slope times the distance *)
  assert (U : pow2 (-53) * D <= 1).
  { apply Qle_trans with (pow2 (-53) * pow2 22).
    - apply Qmult_le_l; [apply pow2_pos | lra].
    - rewrite <- pow2_add. vm_compute. discriminate. }
  assert (W : w * D <= A).
  { apply Qle_trans with (A / G * (1 + pow2 (-53)) * D).
    - apply Qmult_le_compat_r; lra.
    - setoid_replace (A / G * (1 + pow2 (-53)) * D)
        with (A / G * (D + pow2 (-53) * D)) by ring.
      rewrite <- HcG at 2. apply Qmult_le_l; [exact Hc | lra]. }
  assert (T1 : - A <= m * D).
  { apply Qle_trans with (- w * D).
    - setoid_replace (- w * D) with (- (w * D)) by ring. lra.
    - apply Qmult_le_compat_r; lra. }
  assert (T2 : m * D <= 0).
  { setoid_replace 0 with (0 * D) by ring. apply Qmult_le_compat_r; lra. }
  destruct (round64_between (m * D) (- A) 0 _ _ HnA round64_0 T1 T2)
    as (t & Et & Lt & Ut).
  (* the sum *)
  unfold fsub. cbn [fopp fadd]. rewrite Es.
  rewrite fdiv_Fin_pos by exact HG. rewrite Em.
  cbn [fmul]. rewrite Et. cbn [fadd].
  apply round64_nonneg. lra.
Qed.

Lemma steady_nonneg (x : pyfloat) : steady x -> nonneg x.
Proof.
  intros [-> | (a & -> & _ & [Z | B])]; unfold nonneg; cbn [fle]; trivial.
  - lra.
  - pose proof (pow2_pos (-1000)). lra.
Qed.

(** [np.interp] between two steady readings is not below zero. *)
Lemma np_interp_nonneg (a b : pyfloat) (d g : nat) :
  steady a -> steady b -> (0 < d < g)%nat -> (Z.of_nat g <= 2 ^ 22)%Z ->
  nonneg (np_interp a b d g).
Proof.
  intros Ha Hb Hd Hg.
  assert (HG : 0 < inject_Z (Z.of_nat g)) by (apply inject_nat_pos; lia).
  assert (HD : 0 < inject_Z (Z.of_nat d)) by (apply inject_nat_pos; lia).
  assert (HR : - inject_Z (Z.of_nat (g - d)) < 0).
  { assert (0 < inject_Z (Z.of_nat (g - d))) by (apply inject_nat_pos; lia).
    lra. }
  destruct (fdiv_inf_pos _ HG) as [Dp Dn].
  pose proof (steady_nonneg a Ha) as Na. pose proof (steady_nonneg b Hb) as Nb.
  destruct Ha as [-> | (A & -> & HA & SA)];
  destruct Hb as [-> | (B & -> & HB & SB)].
  - unfold np_interp, of_nat. reflexivity.
  - unfold np_interp, of_nat. cbn [fsub fopp fadd].
    rewrite Dn. cbn [fmul fopp].
    rewrite (inf_signed_pos _ false HD), (inf_signed_neg _ false HR).
    reflexivity.
  - unfold np_interp, of_nat. cbn [fsub fopp fadd].
    rewrite Dp. cbn [fmul].
    rewrite (inf_signed_pos _ true HD). reflexivity.
  - destruct (np_interp_Fin A B d g) as [E _]; [lia | lia |].
    rewrite E. unfold nonneg in Na, Nb. cbn [fle] in Na, Nb.
    destruct (Qlt_le_dec B A) as [Down | Up].
    + destruct SA as [Z | Big]; [lra |].
      apply interp_down_nonneg; trivial; lra.
    + apply nonneg_fadd; [| exact Na].
      apply nonneg_fmul_pos; [| exact HD].
      apply nonneg_fdiv_pos; [| exact HG].
      unfold fsub. cbn [fopp fadd]. apply round64_nonneg. lra.
Qed.

Lemma steady_py_float (q : Q) :
  q == 0 \/ pow2 (-1000) <= q -> steady (py_float q).
Proof.
  unfold py_float. intros [Z | Big].
  - right. exists 0. rewrite (round64_zero q Z).
    split; [reflexivity |]. split; [apply round64_0 | left; reflexivity].
  - pose proof (round64_mono _ _ Big) as M.
    replace (round64 (pow2 (-1000))) with (Fin (pow2 (-1000))) in M
      by (vm_compute; reflexivity).
    destruct (round64 q) as [a | | |] eqn:E; cbn [fle] in M;
      try contradiction.
    + right. exists a. split; [reflexivity |].
      split; [exact (round64_idem q a E) | right; exact M].
    + now left.
Qed.

Lemma to_numeric_steady (raw : list (option Q)) :
  (forall q, In (Some q) raw -> q == 0 \/ pow2 (-1000) <= q) ->
  Forall (fun x => x = NaN \/ steady x) (to_numeric raw).
Proof.
  induction raw as [| [q |] raw IH]; intros H; simpl; constructor.
  - right. apply steady_py_float. apply H. now left.
  - apply IH. intros q' Hq'. apply H. now right.
  - now left.
  - apply IH. intros q' Hq'. apply H. now right.
Qed.

Lemma steady_not_nan (x : pyfloat) : steady x -> isna x = false.
Proof. intros H. apply nonneg_not_nan, steady_nonneg, H. Qed.

(** The distance back to the last valid value. *)
Lemma interp_after_nonneg (l : Series) :
  forall prev,
    Forall (fun x => x = NaN \/ steady x) l ->
    (Z.of_nat (match prev with Some (dl, _) => dl | None => 0 end
               + List.length l) <= 2 ^ 22)%Z ->
    (prev = None \/ exists dl a, prev = Some (S dl, a) /\ steady a) ->
    Forall missing_or_nonneg (interp_after prev l).
Proof.
  induction l as [| x t IH]; intros prev Hl Hlen Hprev; simpl; [constructor |].
  inversion Hl as [| x' t' Hx Ht]; subst.
  simpl List.length in Hlen.
  destruct Hx as [-> | Sx].
  - simpl. destruct Hprev as [-> | (dl & a & -> & Sa)].
    + constructor; [now left |]. apply IH; auto. lia.
    + constructor.
      * right. destruct (first_valid t) as [[dr b] |] eqn:E.
        -- destruct (first_valid_In _ _ _ E) as (Hin & Hb & Hdr).
           rewrite Forall_forall in Ht.
           destruct (Ht b Hin) as [-> | Sb]; [discriminate |].
           apply np_interp_nonneg; trivial; lia.
        -- now apply steady_nonneg.
      * apply IH; [exact Ht | lia |]. right. exists (S dl), a. auto.
  - rewrite (steady_not_nan x Sx).
    constructor; [right; now apply steady_nonneg |].
    apply IH; [exact Ht | |].
    + destruct prev as [[dl a] |]; lia.
    + right. exists 0%nat, x. auto.
Qed.

Lemma fillna_not_missing (d : Q) (l : Series) :
  Forall (fun x => isna x = false) (fillna d l).
Proof.
  unfold fillna. rewrite Forall_map. apply Forall_forall.
  intros x _. now destruct x.
Qed.

Lemma fillna_nonneg (d : Q) (l : Series) :
  0 <= d -> Forall missing_or_nonneg l -> Forall nonneg (fillna d l).
Proof.
  intros Hd Hl. unfold fillna. rewrite Forall_map.
  apply Forall_impl with (2 := Hl).
  intros x [-> | Hx]; [exact Hd |].
  unfold fillna1. now rewrite (nonneg_not_nan x Hx).
Qed.

Lemma clean_eto_nonneg (raw : list (option Q)) :
  (forall q, In (Some q) raw -> q == 0 \/ pow2 (-1000) <= q) ->
  (Z.of_nat (List.length raw) <= 2 ^ 22)%Z ->
  Forall nonneg (clean_eto raw).
Proof.
  intros Hraw Hlen. apply fillna_nonneg; [discriminate |].
  apply interp_after_nonneg; [now apply to_numeric_steady | | now left].
  unfold to_numeric. now rewrite length_map.
Qed.

Lemma clean_rain_nonneg (raw : list (option Q)) :
  (forall q, In (Some q) raw -> 0 <= q) -> Forall nonneg (clean_rain raw).
Proof.
  intros Hraw. apply fillna_nonneg; [discriminate |].
  induction raw as [| [q |] raw IH]; simpl; constructor.
  - right. apply round64_nonneg. apply Hraw. now left.
  - apply IH. intros q' Hq'. apply Hraw. now right.
  - now left.
  - apply IH. intros q' Hq'. apply Hraw. now right.
Qed.

Lemma nth_error_to_numeric (raw : list (option Q)) (i : nat) (o : option Q) :
  nth_error raw i = Some o ->
  nth_error (to_numeric raw) i
  = Some (match o with Some q => py_float q | None => NaN end).
Proof. intros H. unfold to_numeric. now rewrite (map_nth_error _ _ _ H). Qed.

Lemma py_float_not_nan (q : Q) : isna (py_float q) = false.
Proof. apply round64_not_nan. Qed.

Lemma fillna1_valid (d : Q) (x : pyfloat) : isna x = false -> fillna1 d x = x.
Proof. intros H. unfold fillna1. now rewrite H. Qed.

Lemma clean_eto_known (raw : list (option Q)) (i : nat) (q : Q) :
  nth_error raw i = Some (Some q) ->
  nth_error (clean_eto raw) i = Some (py_float q).
Proof.
  intros H. apply nth_error_to_numeric in H.
  unfold clean_eto, fillna, interpolate.
  rewrite (map_nth_error _ _ _
             (interp_after_valid _ _ _ None H (py_float_not_nan q))).
  now rewrite fillna1_valid by apply py_float_not_nan.
Qed.

Lemma clean_eto_gap
  (pre : list (option Q)) (a : Q) (k : nat) (b : Q) (post : list (option Q))
  (j : nat) :
  (j < k)%nat ->
  nth_error (clean_eto (pre ++ Some a :: repeat None k ++ Some b :: post))
            (List.length pre + 1 + j)
  = Some (fillna1 ETO_DEFAULT
            (np_interp (py_float a) (py_float b) (S j) (S k))).
Proof.
  intros Hj. unfold clean_eto, fillna, interpolate.
  rewrite to_numeric_app. simpl to_numeric.
  rewrite to_numeric_app, to_numeric_gap. simpl to_numeric.
  rewrite nth_error_map.
  replace (List.length pre) with (List.length (to_numeric pre))
    by apply length_map.
  rewrite interp_after_skip by apply py_float_not_nan.
  rewrite interp_after_interior by (trivial; apply py_float_not_nan).
  reflexivity.
Qed.

(** Between two known values that are finite floats the gap is on the
    floating-point line through them. *)
Lemma clean_eto_interior
  (pre : list (option Q)) (a : Q) (k : nat) (b : Q) (post : list (option Q))
  (j : nat) (fa fb : Q) :
  py_float a = Fin fa -> py_float b = Fin fb -> (j < k)%nat ->
  nth_error (clean_eto (pre ++ Some a :: repeat None k ++ Some b :: post))
            (List.length pre + 1 + j)
  = Some (fadd (fmul (fdiv (fsub (Fin fb) (Fin fa)) (of_nat (S k)))
                     (of_nat (S j)))
               (Fin fa)).
Proof.
  intros Ha Hb Hj. rewrite clean_eto_gap by exact Hj.
  rewrite Ha, Hb.
  destruct (np_interp_Fin fa fb (S j) (S k)) as [E N]; [lia | lia |].
  rewrite fillna1_valid by exact N. now rewrite E.
Qed.

Lemma clean_eto_trailing
  (pre : list (option Q)) (a : Q) (k j : nat) :
  (j < k)%nat ->
  nth_error (clean_eto (pre ++ Some a :: repeat None k))
            (List.length pre + 1 + j)
  = Some (py_float a).
Proof.
  intros Hj. unfold clean_eto, fillna, interpolate.
  rewrite to_numeric_app. simpl to_numeric. rewrite to_numeric_gap.
  rewrite nth_error_map.
  replace (List.length pre) with (List.length (to_numeric pre))
    by apply length_map.
  rewrite interp_after_skip by apply py_float_not_nan.
  rewrite interp_after_trailing by exact Hj.
  simpl. now rewrite fillna1_valid by apply py_float_not_nan.
Qed.

Lemma clean_eto_leading (k : nat) (rest : list (option Q)) (j : nat) :
  (j < k)%nat ->
  nth_error (clean_eto (repeat None k ++ rest)) j = Some (Fin ETO_DEFAULT).
Proof.
  intros Hj. unfold clean_eto, fillna, interpolate.
  rewrite to_numeric_app, to_numeric_gap, nth_error_map.
  now rewrite interp_after_leading.
Qed.

Lemma clean_rain_at (raw : list (option Q)) (i : nat) (o : option Q) :
  nth_error raw i = Some o ->
  nth_error (clean_rain raw) i
  = Some (match o with Some q => py_float q | None => Fin 0 end).
Proof.
  intros H. apply nth_error_to_numeric in H.
  unfold clean_rain, fillna. rewrite (map_nth_error _ _ _ H).
  destruct o as [q |]; [| reflexivity].
  now rewrite fillna1_valid by apply py_float_not_nan.
Qed.

Lemma cleaning_lengths (raw_eto raw_rain : list (option Q)) :
  List.length (clean_eto raw_eto) = List.length raw_eto /\
  List.length (clean_rain raw_rain) = List.length raw_rain.
Proof.
  split.
  - unfold clean_eto, fillna, interpolate, to_numeric.
    now rewrite length_map, interp_after_length, length_map.
  - unfold clean_rain, fillna, to_numeric. now rewrite !length_map.
Qed.

(** C7, as the claim states it, fails three times.  A negative reading is
    kept as it is, so a cleaned value can be negative; a gap at the end of
    the series, which has no known value after it, takes the last known
    value and not 3.5; and between the tiny reading 3 * 2^-1074 and a zero
    five days later the slope underflows, so that the fourth interpolated
    value is the negative number -2^-1074 although no reading is negative. *)
Lemma cleaning_keeps_negative_and_pads_the_end :
  (clean_eto [Some (-1)] = [Fin (-1)] /\ ~ 0 <= -1) /\
  (clean_rain [Some (-1)] = [Fin (-1)]) /\
  (clean_eto [Some 2; None] = [Fin 2; Fin 2] /\ ~ 2 == ETO_DEFAULT) /\
  (let tiny := 3 * pow2 (-1074) in
   0 <= tiny /\
   nth_error (clean_eto [Some tiny; None; None; None; None; Some 0]) 4
   = Some (Fin (- pow2 (-1074))) /\
   - pow2 (-1074) < 0).
Proof.
  split; [split; [vm_compute; reflexivity | intros H; lra] |].
  split; [vm_compute; reflexivity |].
  split; [split; [vm_compute; reflexivity | intros H; discriminate H] |].
  split; [vm_compute; discriminate |].
  split; [vm_compute; reflexivity | vm_compute; reflexivity].
Qed.

(** C7 (amended): after cleaning, both columns have their length and
    nothing is missing; a known value is kept, as the float nearest to it;
    an evapotranspiration gap between two known values takes [np.interp]
    between them, which for finite values is the floating-point line
    through them; a gap after the last known value takes that value; what
    is missing before the first known value (or everywhere) is 3.5; a
    precipitation gap is 0; when no known precipitation is negative, no
    cleaned precipitation is below zero; and when every known
    evapotranspiration is zero or at least 2^-1000 and the series has at
    most 2^22 days, no cleaned evapotranspiration is below zero. *)
Theorem cleaning_fills_gaps (raw_eto raw_rain : list (option Q)) :
  (Forall (fun x => isna x = false) (clean_eto raw_eto) /\
   Forall (fun x => isna x = false) (clean_rain raw_rain)) /\
  (List.length (clean_eto raw_eto) = List.length raw_eto /\
   List.length (clean_rain raw_rain) = List.length raw_rain) /\
  (forall i q, nth_error raw_eto i = Some (Some q) ->
     nth_error (clean_eto raw_eto) i = Some (py_float q)) /\
  (forall i q, nth_error raw_rain i = Some (Some q) ->
     nth_error (clean_rain raw_rain) i = Some (py_float q)) /\
  (forall pre a k b post j,
     raw_eto = pre ++ Some a :: repeat None k ++ Some b :: post ->
     (j < k)%nat ->
     nth_error (clean_eto raw_eto) (List.length pre + 1 + j)
     = Some (fillna1 (35 # 10)
               (np_interp (py_float a) (py_float b) (S j) (S k))) /\
     forall fa fb, py_float a = Fin fa -> py_float b = Fin fb ->
       nth_error (clean_eto raw_eto) (List.length pre + 1 + j)
       = Some (fadd (fmul (fdiv (fsub (Fin fb) (Fin fa)) (of_nat (S k)))
                          (of_nat (S j)))
                    (Fin fa))) /\
  (forall pre a k j,
     raw_eto = pre ++ Some a :: repeat None k -> (j < k)%nat ->
     nth_error (clean_eto raw_eto) (List.length pre + 1 + j)
     = Some (py_float a)) /\
  (forall k rest j,
     raw_eto = repeat None k ++ rest -> (j < k)%nat ->
     nth_error (clean_eto raw_eto) j = Some (Fin (35 # 10))) /\
  (forall i, nth_error raw_rain i = Some None ->
     nth_error (clean_rain raw_rain) i = Some (Fin 0)) /\
  ((forall q, In (Some q) raw_eto -> q == 0 \/ pow2 (-1000) <= q) ->
   (Z.of_nat (List.length raw_eto) <= 2 ^ 22)%Z ->
   Forall nonneg (clean_eto raw_eto)) /\
  ((forall q, In (Some q) raw_rain -> 0 <= q) ->
   Forall nonneg (clean_rain raw_rain)).
Proof.
  split; [split; apply fillna_not_missing |].
  split; [apply cleaning_lengths |].
  split; [apply clean_eto_known |].
  split; [intros i q H; apply (clean_rain_at _ _ _ H) |].
  split.
  { intros pre a k b post j -> Hj.
    split; [now apply clean_eto_gap |].
    intros fa fb Ha Hb. now apply clean_eto_interior. }
  split; [intros pre a k j -> Hj; now apply clean_eto_trailing |].
  split; [intros k rest j -> Hj; now apply clean_eto_leading |].
  split; [intros i H; apply (clean_rain_at _ _ _ H) |].
  split; [apply clean_eto_nonneg | apply clean_rain_nonneg].
Qed.

(** A series with a gap before, between and after its known values. *)
Lemma cleaning_fills_gaps_witness :
  let raw := [None; Some 2; None; None; Some 5; None] in
  raw = [None] ++ Some 2 :: repeat None 2 ++ Some 5 :: [None] /\
  Forall nonneg (clean_eto raw) /\
  nth_error (clean_eto raw) 2 = Some (Fin 3) /\
  nth_error (clean_eto raw) 0 = Some (Fin (35 # 10)).
Proof.
  intros raw.
  destruct (cleaning_fills_gaps raw [])
    as (_ & _ & _ & _ & Hmid & _ & Hlead & _ & Hpos & _).
  split; [reflexivity |]. split; [| split].
  - apply Hpos; [| vm_compute; discriminate].
    intros q Hq. simpl in Hq. right.
    repeat (destruct Hq as [Hq | Hq];
            [try discriminate Hq; injection Hq as <-; vm_compute; discriminate |]).
    contradiction.
  - destruct (Hmid [None] 2 2%nat 5 [None] 0%nat eq_refl (Nat.lt_0_succ 1))
      as [_ Hline].
    change (List.length [@None Q] + 1 + 0)%nat with 2%nat in Hline.
    rewrite (Hline 2 5) by (vm_compute; reflexivity).
    vm_compute. reflexivity.
  - exact (Hlead 1%nat (tl raw) 0%nat eq_refl (Nat.lt_0_succ 0)).
Defined.

(** ** The reference day (C3) *)

Lemma reported_statuses_app (t1 t2 : list effect) :
  reported_statuses (t1 ++ t2) = reported_statuses t1 ++ reported_statuses t2.
Proof. apply flat_map_app. Qed.

(** The weather client reports no status. *)
Lemma retry_loop_no_status (net : nat -> net_reply) (attempts : list nat) :
  reported_statuses (fst (retry_loop net attempts)) = [].
Proof.
  induction attempts as [| a rest IH]; [reflexivity |].
  destruct (attempt_once (net a)) as [df | e] eqn:E.
  - now rewrite (retry_loop_ok _ _ _ _ E).
  - destruct (is_request_exception e) eqn:Ee.
    + destruct e; try discriminate.
      rewrite (retry_loop_transient _ _ _ _ E). exact IH.
    + now rewrite (retry_loop_fatal _ _ _ _ E Ee).
Qed.

Lemma build_frame_clean (data : option daily_json) (df : DataFrame) :
  build_frame data = Ok df -> clean_frame df.
Proof.
  unfold build_frame.
  destruct data as [[[time |] [et0 |] [rain |]] |]; simpl; try discriminate.
  destruct (_ && _)%bool eqn:E; [| discriminate].
  destruct (to_datetime time) as [days | e] eqn:Et; simpl; [| discriminate].
  intros [= <-]. apply andb_true_iff in E. destruct E as [E1 E2].
  apply Nat.eqb_eq in E1. apply Nat.eqb_eq in E2.
  destruct (cleaning_lengths et0 rain) as [L1 L2].
  pose proof (to_datetime_length _ _ Et) as Ld.
  repeat split; simpl.
  - apply fillna_not_missing.
  - apply fillna_not_missing.
  - congruence.
  - congruence.
Qed.

Lemma attempt_once_clean (reply : net_reply) (df : DataFrame) :
  attempt_once reply = Ok df -> clean_frame df.
Proof.
  destruct reply as [e | code body]; simpl; [discriminate |].
  destruct (code =? 429)%Z; destruct (raise_for_status code); simpl;
    try discriminate; destruct body as [| data]; simpl; try discriminate;
    apply build_frame_clean.
Qed.

Lemma retry_loop_clean (net : nat -> net_reply) (attempts : list nat)
  (df : DataFrame) :
  snd (retry_loop net attempts) = Ok df -> clean_frame df.
Proof.
  induction attempts as [| a rest IH].
  - simpl. intros [= <-]. repeat split; constructor.
  - destruct (attempt_once (net a)) as [df' | e] eqn:E.
    + rewrite (retry_loop_ok _ _ _ _ E). simpl. intros [= <-].
      now apply attempt_once_clean with (net a).
    + destruct (is_request_exception e) eqn:Ee.
      * destruct e; try discriminate.
        rewrite (retry_loop_transient _ _ _ _ E). exact IH.
      * rewrite (retry_loop_fatal _ _ _ _ E Ee). discriminate.
Qed.

Lemma iloc_s_Some (s : Series) (i : nat) (x : pyfloat) :
  iloc_s s i = Ok x <-> nth_error s i = Some x.
Proof.
  unfold iloc_s, out_of_bounds.
  destruct (nth_error s i); split; congruence.
Qed.

(** The row [df.iloc[i]] holds the entries of the columns at [i]. *)
Lemma iloc_fields (df : DataFrame) (b : Balance) (i : nat) (today : Row) :
  iloc df b i = Ok today ->
  nth_error (Rain df) i = Some (r_Rain today) /\
  nth_error (Crop_Water_Need b) i = Some (r_Crop_Water_Need today) /\
  nth_error (Irrigation_Req b) i = Some (r_Irrigation_Req today) /\
  nth_error (Pump_Hours b) i = Some (r_Pump_Hours today).
Proof.
  unfold iloc. destruct (nth_error (Date df) i) as [d |]; [| discriminate].
  destruct (iloc_s (Rain df) i) as [x1 |] eqn:E1; [| discriminate].
  destruct (iloc_s (Crop_Water_Need b) i) as [x2 |] eqn:E2; [| discriminate].
  destruct (iloc_s (Irrigation_Req b) i) as [x3 |] eqn:E3; [| discriminate].
  destruct (iloc_s (Pump_Hours b) i) as [x4 |] eqn:E4; [| discriminate].
  simpl. intros [= <-]. simpl.
  apply iloc_s_Some in E1, E2, E3, E4. auto.
Qed.

(** The runs of the dashboard, by what raises. *)
Lemma dashboard_runs (df : DataFrame) (kc fs pc : Q) :
  dashboard df kc fs pc =
  match calculate df kc fs pc with
  | Raise e => ([], Raise e)
  | Ok b =>
      match iloc df b 2 with
      | Raise e => ([], Raise e)
      | Ok today =>
          dashboard_after today (pump_runtime (r_Pump_Hours today))
            (rbind (iloc_s (total_liters b) 2) py_int)
      end
  end.
Proof.
  unfold dashboard, dashboard_after.
  destruct (calculate df kc fs pc) as [b | e]; [| reflexivity].
  unfold lift at 1. unfold bind at 1.
  destruct (iloc df b 2) as [today | e]; [| reflexivity].
  destruct (pump_runtime (r_Pump_Hours today)) as [hm | e] eqn:Ep;
    simpl; rewrite Ep; [| reflexivity].
  destruct (classify today); [reflexivity |].
  destruct (rbind (iloc_s (total_liters b) 2) py_int); reflexivity.
Qed.

(** The statuses that the dashboard reports: none, or the one of the
    reference day, and then the runtime was split. *)
Lemma dashboard_statuses (df : DataFrame) (kc fs pc : Q) :
  reported_statuses (fst (dashboard df kc fs pc)) = [] \/
  exists b today hm,
    calculate df kc fs pc = Ok b /\
    iloc df b 2 = Ok today /\
    pump_runtime (r_Pump_Hours today) = Ok hm /\
    reported_statuses (fst (dashboard df kc fs pc)) = [classify today].
Proof.
  rewrite dashboard_runs. unfold dashboard_after.
  destruct (calculate df kc fs pc) as [b | e]; [| now left].
  destruct (iloc df b 2) as [today | e] eqn:Hi; [| now left].
  destruct (pump_runtime (r_Pump_Hours today)) as [hm | e] eqn:Hr;
    [| now left].
  destruct (classify today) eqn:Ec.
  - right. exists b, today, hm. rewrite Ec.
    split; [reflexivity |]. split; [exact Hi |]. split; [exact Hr |].
    reflexivity.
  - destruct (rbind (iloc_s (total_liters b) 2) py_int) as [liters | e];
      [| now left].
    right. exists b, today, hm. rewrite Ec.
    split; [reflexivity |]. split; [exact Hi |]. split; [exact Hr |].
    reflexivity.
Qed.

(** The statuses of a whole run are those of its dashboard. *)
Lemma run_audit_statuses (net : nat -> net_reply) (kc fs pc : Q) :
  reported_statuses (fst (run_audit net kc fs pc))
  = match snd (get_weather_data_safe net) with
    | Ok df => if empty df then []
               else reported_statuses (fst (dashboard df kc fs pc))
    | Raise _ => []
    end.
Proof.
  unfold run_audit.
  pose proof (retry_loop_no_status net (seq 0 3)) as Hfetch.
  fold (get_weather_data_safe net) in Hfetch.
  destruct (get_weather_data_safe net) as [t [df | e]]; simpl in *;
    [| exact Hfetch].
  destruct (empty df).
  - simpl. now rewrite app_nil_r.
  - destruct (dashboard df kc fs pc) as [td [[] | e]]; simpl;
      rewrite !reported_statuses_app, Hfetch; simpl;
      now rewrite !app_nil_r.
Qed.

(** Each row of the derived columns, from its irrigation need. *)
Lemma calculate_rows (df : DataFrame) (kc fs pc : Q) (b : Balance)
  (i : nat) (v : pyfloat) :
  calculate df kc fs pc = Ok b ->
  nth_error (Irrigation_Req b) i = Some v ->
  (exists u, v = clip_lower 0 u) /\
  nth_error (total_liters b) i
  = Some (fmul (fmul v LITERS_PER_MM_ACRE) (py_float fs)) /\
  nth_error (Pump_Hours b) i
  = Some (fdiv (fmul (fmul v LITERS_PER_MM_ACRE) (py_float fs))
               (of_int (trunc pc * 60))).
Proof.
  intros Hb Hv.
  destruct (calculate_divisor df kc fs pc b Hb) as (d & Hd & Hof).
  rewrite (calculate_Ok df kc fs pc (Fin d) Hd) in Hb. injection Hb as <-.
  cbn [Crop_Water_Need Irrigation_Req total_liters Pump_Hours] in *.
  set (s := sub (mul_scalar (ETo df) (py_float kc)) (Rain df)) in *.
  unfold clip in *. rewrite nth_error_map in Hv.
  destruct (nth_error s i) as [u |] eqn:Eu; [| discriminate].
  injection Hv as <-.
  split; [now exists u |].
  unfold mul_scalar at 1 2 3 4. rewrite Hof.
  rewrite !nth_error_map, Eu. split; reflexivity.
Qed.

(** What a product or a quotient that is a number is made of. *)
Lemma fmul_Fin_inv (x y : pyfloat) (a : Q) :
  fmul x y = Fin a -> exists p q, x = Fin p /\ y = Fin q /\ round64 (p * q) = Fin a.
Proof.
  destruct x as [p | | |], y as [q | | |]; simpl; try discriminate;
    try (unfold inf_signed; destruct (_ ?= _); discriminate).
  intros H. eauto.
Qed.

Lemma fdiv_Fin_inv (x : pyfloat) (d h : Q) :
  fdiv x (Fin d) = Fin h ->
  exists a, x = Fin a /\ ~ d == 0 /\ round64 (a / d) = Fin h.
Proof.
  destruct x as [a | | |]; simpl; try discriminate.
  - destruct (Qcompare_spec d 0) as [E | L | G]; intros H.
    + unfold inf_signed in H. destruct (a ?= 0); discriminate.
    + exists a. repeat split; trivial. lra.
    + exists a. repeat split; trivial. lra.
  - destruct (Qle_bool 0 d); discriminate.
  - destruct (Qle_bool 0 d); discriminate.
Qed.

Lemma clip_lower_Fin_inv (u : pyfloat) (n : Q) :
  clip_lower 0 u = Fin n -> 0 <= n.
Proof.
  destruct u as [a | | |]; simpl; try discriminate.
  - destruct (Qlt_le_dec a 0); intros [= <-]; lra.
  - intros [= <-]. lra.
Qed.

(** The fractional part kept by [int]. *)
Lemma trunc_fraction (h : Q) :
  - (1) < h - inject_Z (trunc h) /\ h - inject_Z (trunc h) < 1 /\
  (0 <= h -> 0 <= h - inject_Z (trunc h)) /\
  (h <= 0 -> h - inject_Z (trunc h) <= 0).
Proof.
  destruct (Qlt_le_dec h 0) as [Neg | Pos].
  - rewrite trunc_nonpos by lra. unfold Qceiling.
    pose proof (Qfloor_le (- h)) as F1. pose proof (Qlt_floor (- h)) as F2.
    rewrite inject_Z_plus in F2. change (inject_Z 1) with 1 in F2.
    rewrite inject_Z_opp. repeat split; intros; lra.
  - destruct (Qlt_le_dec 0 h) as [Pos' | Zero].
    + rewrite trunc_nonneg by lra.
      destruct (fractional_part_bounds h) as [F1 F2].
      repeat split; intros; lra.
    + rewrite trunc_zero by lra. change (inject_Z 0) with 0.
      repeat split; intros; lra.
Qed.

(** The runtime of a number of hours is always split: into [int] of the
    hours and the floor of a float between 0 and 60. *)
Lemma pump_runtime_Fin (h : Q) :
  exists p, pump_runtime (Fin h) = Ok (trunc h, Qfloor p) /\
            0 <= p /\ p <= 60 /\ (0 <= Qfloor p <= 60)%Z.
Proof.
  destruct (trunc_fraction h) as (Lo & Hi & _ & _).
  assert (R1 : round64 1 = Fin 1) by (vm_compute; reflexivity).
  assert (R60 : round64 60 = Fin 60) by (vm_compute; reflexivity).
  assert (Hx : exists x, fmod1 (Fin h) = Fin x /\ 0 <= x /\ x <= 1).
  { unfold fmod1. set (r := Qred (h - inject_Z (trunc h))).
    assert (Er : r == h - inject_Z (trunc h)) by apply Qred_correct.
    destruct (Qlt_le_dec r 0) as [Neg | Pos].
    - cbn [fadd].
      destruct (round64_between (r + 1) 0 1 0 1 round64_0 R1)
        as (x & Ex & Lx & Ux); [lra | lra |].
      exists x. rewrite Ex. auto.
    - exists r. split; [reflexivity |]. split; lra. }
  destruct Hx as (x & Ex & Lx & Ux).
  destruct (round64_between (x * 60) 0 60 0 60 round64_0 R60)
    as (p & Ep & Lp & Up); [lra | lra |].
  exists p. split.
  - unfold pump_runtime. rewrite Ex. cbn [py_int rbind fmul].
    rewrite Ep. cbn [py_int rbind]. now rewrite (trunc_nonneg p Lp).
  - split; [exact Lp |]. split; [exact Up |].
    assert (0 <= Qfloor p < 61)%Z; [| lia].
    apply Qfloor_bounds.
    + change (inject_Z 0) with 0. lra.
    + change (inject_Z 61) with 61. lra.
Qed.

Lemma pump_runtime_Ok_inv (x : pyfloat) (hm : Z * Z) :
  pump_runtime x = Ok hm -> exists h, x = Fin h.
Proof.
  destruct x as [h | | |]; try discriminate. eauto.
Qed.

(** The reference day when its pump hours are a number: its need and its
    volume are numbers too, and the need is not negative. *)
Lemma finite_reference_day (df : DataFrame) (kc fs pc : Q) (b : Balance)
  (today : Row) (h : Q) :
  calculate df kc fs pc = Ok b ->
  iloc df b 2 = Ok today ->
  r_Pump_Hours today = Fin h ->
  exists need volume,
    r_Irrigation_Req today = Fin need /\ 0 <= need /\
    nth_error (Irrigation_Req b) 2 = Some (Fin need) /\
    nth_error (total_liters b) 2 = Some (Fin volume).
Proof.
  intros Hb Hi Hh.
  destruct (iloc_fields _ _ _ _ Hi) as (_ & _ & Hreq & Hp).
  destruct (calculate_rows _ _ _ _ _ _ _ Hb Hreq) as ([u Hu] & Hlit & Hpump).
  destruct (calculate_divisor _ _ _ _ _ Hb) as (d & _ & Hof).
  rewrite Hp, Hh, Hof in Hpump. injection Hpump as Hpump. symmetry in Hpump.
  destruct (fdiv_Fin_inv _ _ _ Hpump) as (volume & Hv & _ & _).
  destruct (fmul_Fin_inv _ _ _ Hv) as (w & f & Hw & _ & _).
  destruct (fmul_Fin_inv _ _ _ Hw) as (need & l & Hn & _ & _).
  exists need, volume. rewrite Hn in *.
  split; [reflexivity |].
  split; [apply (clip_lower_Fin_inv u); now rewrite <- Hu |].
  split; [exact Hreq |].
  now rewrite Hlit, Hv.
Qed.

Lemma classify_by_need (today : Row) (need : Q) :
  r_Irrigation_Req today = Fin need -> 0 <= need ->
  (classify today = WATER_STRESS <-> 0 < need) /\
  (classify today = ADEQUATE <-> need == 0).
Proof.
  intros Hreq Hpos. unfold classify. rewrite Hreq.
  pose proof (fgt0_Fin need) as Hgt.
  destruct (fgt0 (Fin need)).
  - assert (0 < need) by now apply Hgt.
    split; split; intros H'; trivial; try discriminate. lra.
  - assert (~ 0 < need) by (intros H'; apply Hgt in H'; discriminate).
    split; split; intros H'; trivial; try discriminate; try contradiction.
    lra.
Qed.

(** C3: whenever a run reports a status, it reports exactly one, that of the
    reference day (row 2 of the fetched frame), whose irrigation_need_mm is
    then a number that is not negative; and this status is WATER_STRESS if
    and only if that need is positive and ADEQUATE if and only if it is
    zero.  A status is reported whenever the fetched frame has a reference
    day whose pump hours are a number. *)
Theorem status_follows_irrigation_need
  (net : nat -> net_reply) (kc fs pc : Q) :
  let statuses := reported_statuses (fst (run_audit net kc fs pc)) in
  (forall s, In s statuses ->
     exists df b need,
       snd (get_weather_data_safe net) = Ok df /\
       calculate df kc fs pc = Ok b /\
       nth_error (Irrigation_Req b) 2 = Some (Fin need) /\
       statuses = [s] /\
       (s = WATER_STRESS <-> 0 < need) /\
       (s = ADEQUATE <-> need == 0)) /\
  (forall df b today h,
     snd (get_weather_data_safe net) = Ok df ->
     calculate df kc fs pc = Ok b ->
     iloc df b 2 = Ok today ->
     r_Pump_Hours today = Fin h ->
     statuses = [classify today]).
Proof.
  intros statuses. subst statuses. rewrite run_audit_statuses.
  destruct (snd (get_weather_data_safe net)) as [df | e] eqn:Ef.
  2: { split; [intros s [] | intros df b today h Hdf; discriminate Hdf]. }
  split.
  - intros s Hs. exists df.
    destruct (empty df) eqn:Ee; [destruct Hs |].
    destruct (dashboard_statuses df kc fs pc)
      as [Hnone | (b & today & hm & Hb & Hi & Hrun & Hst)].
    + rewrite Hnone in Hs. destruct Hs.
    + rewrite Hst in Hs |- *. destruct Hs as [<- | []].
      destruct (pump_runtime_Ok_inv _ _ Hrun) as [h Hh].
      destruct (finite_reference_day df kc fs pc b today h Hb Hi Hh)
        as (need & volume & Hreq & Hpos & Hcol & _).
      exists b, need. split; [reflexivity |]. split; [exact Hb |].
      split; [exact Hcol |]. split; [reflexivity |].
      now apply classify_by_need.
  - intros df' b today h [= <-] Hb Hi Hh.
    assert (Ee : empty df = false).
    { unfold empty. unfold iloc in Hi.
      destruct (Date df); [discriminate Hi | reflexivity]. }
    rewrite Ee.
    destruct (finite_reference_day df kc fs pc b today h Hb Hi Hh)
      as (need & volume & _ & _ & _ & Hlit).
    destruct (pump_runtime_Fin h) as (p & Hrun & _).
    rewrite dashboard_runs, Hb, Hi, Hh, Hrun.
    apply iloc_s_Some in Hlit. rewrite Hlit.
    unfold dashboard_after. cbn [rbind py_int].
    destruct (classify today); reflexivity.
Qed.

(** The claim's example: eto 3.0, kc 0.8, rain 10.0 on the reference day
    needs no irrigation and is reported ADEQUATE.  With 2.4 mm of rain the
    floating-point product 3.0 * 0.8 is above the rain by one bit, and the
    day is reported as WATER_STRESS. *)
Lemma status_follows_irrigation_need_witness :
  let answer := fun rain : Q =>
    Response 200
      (Json (Some {| j_time := Some [Parseable "2025-06-01";
                                     Parseable "2025-06-02";
                                     Parseable "2025-06-03"];
                     j_et0_fao_evapotranspiration :=
                       Some [Some 3; Some 3; Some 3];
                     j_precipitation_sum :=
                       Some [Some rain; Some rain; Some rain] |})) in
  (reported_statuses (fst (run_audit (fun _ => answer 10) (8 # 10) 1 200))
   = [ADEQUATE] /\
   exists df b need,
     snd (get_weather_data_safe (fun _ => answer 10)) = Ok df /\
     calculate df (8 # 10) 1 200 = Ok b /\
     nth_error (Irrigation_Req b) 2 = Some (Fin need) /\
     need == 0) /\
  (reported_statuses
     (fst (run_audit (fun _ => answer (24 # 10)) (8 # 10) 1 200))
   = [WATER_STRESS] /\
   exists df b need,
     snd (get_weather_data_safe (fun _ => answer (24 # 10))) = Ok df /\
     calculate df (8 # 10) 1 200 = Ok b /\
     nth_error (Irrigation_Req b) 2 = Some (Fin need) /\
     0 < need).
Proof.
  intros answer. split.
  - assert (E : reported_statuses
                  (fst (run_audit (fun _ => answer 10) (8 # 10) 1 200))
                = [ADEQUATE]) by (vm_compute; reflexivity).
    split; [exact E |].
    destruct (proj1 (status_follows_irrigation_need
                       (fun _ => answer 10) (8 # 10) 1 200) ADEQUATE)
      as (df & b & need & Hdf & Hb & Hreq & _ & _ & Hzero).
    { rewrite E. now left. }
    exists df, b, need. repeat (split; [assumption |]). now apply Hzero.
  - assert (E : reported_statuses
                  (fst (run_audit (fun _ => answer (24 # 10)) (8 # 10) 1 200))
                = [WATER_STRESS]) by (vm_compute; reflexivity).
    split; [exact E |].
    destruct (proj1 (status_follows_irrigation_need
                       (fun _ => answer (24 # 10)) (8 # 10) 1 200)
                WATER_STRESS)
      as (df & b & need & Hdf & Hb & Hreq & _ & Hpos & _).
    { rewrite E. now left. }
    exists df, b, need. repeat (split; [assumption |]). now apply Hpos.
Defined.

(** ** The pump capacity (C8, C9, C10) *)

(** Division by the integer zero never yields a number. *)
Lemma fdiv_zero_not_Fin (x : pyfloat) :
  fdiv x (Fin 0) = PosInf \/ fdiv x (Fin 0) = NegInf \/ fdiv x (Fin 0) = NaN.
Proof.
  destruct x as [a | | |]; simpl; auto.
  unfold inf_signed. destruct (a ?= 0); auto.
Qed.

Lemma calculate_zero_capacity (df : DataFrame) (kc fs pc : Q) :
  trunc pc = 0%Z ->
  exists b, calculate df kc fs pc = Ok b /\
            Pump_Hours b = map (fun x => fdiv x (Fin 0)) (total_liters b).
Proof.
  intros Hpc.
  assert (Hd : float_of_int (trunc pc * 60) = Ok (Fin 0))
    by (rewrite Hpc; exact float_of_int_0).
  eexists. split; [exact (calculate_Ok df kc fs pc (Fin 0) Hd) |].
  reflexivity.
Qed.

Lemma pump_runtime_not_a_number (x : pyfloat) :
  x = PosInf \/ x = NegInf \/ x = NaN ->
  exists e, pump_runtime x = Raise e /\
            (e = OverflowError "cannot convert float infinity to integer" \/
             e = ValueError "cannot convert float NaN to integer").
Proof.
  intros [-> | [-> | ->]]; eexists; (split; [reflexivity |]); auto.
Qed.

(** The quotient of a float by a float of at least one in size is a
    number, of the opposite sign when the divisor is negative. *)
Lemma fdiv_by_negative (v d : Q) :
  round64 v = Fin v -> d <= - (1) ->
  exists h, fdiv (Fin v) (Fin d) = Fin h /\ (0 <= v -> h <= 0).
Proof.
  intros Hv Hd. simpl.
  destruct (Qcompare_spec d 0) as [E | L | G]; [lra | | lra].
  assert (Hinv : / d < 0).
  { destruct (Qlt_le_dec (/ d) 0) as [Hlt | Hge]; [exact Hlt |].
    exfalso. assert (Hone : d * / d == 1) by (apply Qmult_inv_r; lra). nra. }
  assert (Hinv1 : - (1) <= / d).
  { destruct (Qlt_le_dec (/ d) (- (1))) as [Hlt | Hge]; [| exact Hge].
    exfalso. assert (Hone : d * / d == 1) by (apply Qmult_inv_r; lra). nra. }
  pose proof (round64_opp_Fin v v Hv) as Hnv.
  unfold Qdiv.
  destruct (Qlt_le_dec v 0) as [Neg | Pos].
  - destruct (round64_between (v * / d) 0 (- v) 0 (- v) round64_0 Hnv)
      as (h & Eh & _ & _); [nra | nra |].
    exists h. split; [exact Eh | intros; lra].
  - destruct (round64_between (v * / d) (- v) 0 (- v) 0 Hnv round64_0)
      as (h & Eh & _ & Uh); [nra | nra |].
    exists h. split; [exact Eh | intros; exact Uh].
Qed.

(** A product of two floats that are not below zero is not below zero, or
    it is the NaN of zero times infinity. *)
Lemma fmul_nonneg_cases (x y : pyfloat) :
  nonneg x -> nonneg y -> fmul x y = NaN \/ nonneg (fmul x y).
Proof.
  intros Hx Hy.
  destruct (nonneg_cases _ Hx) as [-> | (a & -> & Ha)];
  destruct (nonneg_cases _ Hy) as [-> | (f & -> & Hf)]; cbn [fmul].
  - right. exact I.
  - unfold inf_signed.
    destruct (Qcompare_spec f 0) as [E | L | G];
      [left; reflexivity | lra | right; exact I].
  - unfold inf_signed.
    destruct (Qcompare_spec a 0) as [E | L | G];
      [left; reflexivity | lra | right; exact I].
  - right. apply round64_nonneg. nra.
Qed.

(** C8, as the claim states it, fails: with a pump capacity of 0 the
    computation raises nothing and every pump_hours entry is infinite (eto
    5.0, kc 1.1, rain 2.0, one acre). *)
Lemma zero_capacity_infinite_pump_hours :
  let df := {| Date := ["2025-06-01"; "2025-06-02"; "2025-06-03"]%string;
               ETo := [Fin 5; Fin 5; Fin 5];
               Rain := [Fin 2; Fin 2; Fin 2] |} in
  exists b, calculate df (11 # 10) 1 0 = Ok b /\
            Pump_Hours b = [PosInf; PosInf; PosInf].
Proof.
  eexists. split; vm_compute; reflexivity.
Qed.

(** C8 (amended): when int(pump_capacity) is zero, the water balance is
    computed without any error and every pump_hours entry is an infinity or
    NaN; on a frame with a reference day the run then stops where the
    runtime is split into hours, with the OverflowError or ValueError of
    [int], which is shown as a calculation error after the first three
    metrics, and no status is reported.  A capacity of -1 or less (and
    above -2^53) is not rejected either: the balance is computed, pump_hours
    is never positive when the field size is not negative, and it is a
    number, not positive for a volume that is not negative, wherever the
    volume is a number. *)
Theorem nonpositive_capacity_not_rejected (df : DataFrame) (kc fs pc : Q) :
  (trunc pc = 0%Z ->
   exists b,
     calculate df kc fs pc = Ok b /\
     List.length (Pump_Hours b) = List.length (total_liters b) /\
     (forall i x,
        nth_error (Pump_Hours b) i = Some x ->
        x = PosInf \/ x = NegInf \/ x = NaN) /\
     (forall today,
        iloc df b 2 = Ok today ->
        exists e,
          (e = OverflowError "cannot convert float infinity to integer" \/
           e = ValueError "cannot convert float NaN to integer") /\
          try_except (dashboard df kc fs pc)
          = ([MetricRain (r_Rain today);
              MetricCropThirst (r_Crop_Water_Need today);
              MetricIrrigation (r_Irrigation_Req today)
                (if fgt0 (r_Irrigation_Req today) then Deficit else Balanced);
              StErrorCalc e], Ok tt))) /\
  (pc <= - (1) -> - inject_Z (2 ^ 53) < pc ->
   exists b,
     calculate df kc fs pc = Ok b /\
     List.length (Pump_Hours b) = List.length (total_liters b) /\
     forall i need,
       nth_error (Irrigation_Req b) i = Some need ->
       exists x,
         nth_error (Pump_Hours b) i = Some x /\
         (0 <= fs -> fgt0 x = false) /\
         (forall v, nth_error (total_liters b) i = Some (Fin v) ->
            exists h, x = Fin h /\ (0 <= v -> h <= 0))).
Proof.
  split.
  - intros Hpc.
    destruct (calculate_zero_capacity df kc fs pc Hpc) as (b & Hb & Hp).
    assert (Hinf : forall i x, nth_error (Pump_Hours b) i = Some x ->
                               x = PosInf \/ x = NegInf \/ x = NaN).
    { intros i x. rewrite Hp, nth_error_map.
      destruct (nth_error _ i) as [y |]; simpl; [| discriminate].
      intros [= <-]. apply fdiv_zero_not_Fin. }
    exists b. split; [exact Hb |].
    split; [rewrite Hp; apply length_map |].
    split; [exact Hinf |].
    intros today Hi.
    destruct (iloc_fields _ _ _ _ Hi) as (_ & _ & _ & Hph).
    destruct (pump_runtime_not_a_number _ (Hinf _ _ Hph)) as (e & He & Hkind).
    exists e. split; [exact Hkind |].
    rewrite dashboard_runs, Hb, Hi, He. reflexivity.
  - intros Hpc Hlow.
    assert (Hneg : (- 2 ^ 53 <= trunc pc < 0)%Z).
    { rewrite trunc_nonpos by lra. split.
      - rewrite <- (Qceiling_Z (- 2 ^ 53)). apply Qceiling_resp_le.
        rewrite inject_Z_opp. lra.
      - apply Z.le_lt_trans with (Qceiling (- (1))); [| reflexivity].
        now apply Qceiling_resp_le. }
    destruct (float_of_int_neg (trunc pc * 60)) as (d & Hd & Hof & Hd1);
      [lia |].
    pose proof (calculate_Ok df kc fs pc (Fin d) Hd) as Hb. cbv zeta in Hb.
    eexists. split; [exact Hb |].
    split; [cbn [Pump_Hours total_liters]; apply length_map |].
    intros i need Hreq.
    destruct (calculate_rows _ _ _ _ _ _ _ Hb Hreq) as ([u Hu] & Hlit & Hpump).
    rewrite Hof in Hpump.
    eexists. split; [exact Hpump |].
    split.
    + (* the sign *)
      intros Hfs.
      assert (Nn : need = NaN \/ nonneg need).
      { rewrite Hu. destruct (isna u) eqn:Eu.
        - left. now destruct u.
        - right. now apply clip_lower_nonneg. }
      assert (Nf : nonneg (py_float fs)) by now apply round64_nonneg.
      assert (NL : 0 < 404686 # 100) by reflexivity.
      assert (EL : LITERS_PER_MM_ACRE = round64 (404686 # 100)) by reflexivity.
      assert (HL : exists l, LITERS_PER_MM_ACRE = Fin l /\ 0 < l).
      { eexists. split; [vm_compute; reflexivity | reflexivity]. }
      destruct HL as (l & -> & Hl).
      destruct Nn as [-> | Nn]; [reflexivity |].
      pose proof (nonneg_fmul_pos need l Nn Hl) as Nw.
      set (w := fmul need (Fin l)) in *.
      destruct (fmul_nonneg_cases w (py_float fs) Nw Nf) as [Nv | Nv].
      { rewrite Nv. reflexivity. }
      destruct (nonneg_cases _ Nv) as [-> | (v & -> & Hv)].
      * simpl. replace (Qle_bool 0 d) with false; [reflexivity |].
        symmetry. destruct (Qle_bool 0 d) eqn:B; [| reflexivity].
        apply Qle_bool_iff in B. lra.
      * simpl. destruct (Qcompare_spec d 0) as [E | L | G]; [lra | | lra].
        pose proof (round64_nonpos (v / d)) as R.
        assert (Q0 : v / d <= 0).
        { unfold Qdiv.
          assert (Hinv : / d < 0).
          { destruct (Qlt_le_dec (/ d) 0) as [Hlt | Hge]; [exact Hlt |].
            exfalso.
            assert (Hone : d * / d == 1) by (apply Qmult_inv_r; lra). nra. }
          nra. }
        specialize (R Q0).
        destruct (round64 (v / d)) as [h | | |]; simpl in R;
          try contradiction; try reflexivity.
        apply fgt0_Fin_false. exact R.
    + (* the value *)
      intros v Hv. rewrite Hlit in Hv. injection Hv as Hv.
      rewrite Hv.
      destruct (fmul_Fin_inv _ _ _ Hv) as (p & q & _ & _ & Hr).
      apply fdiv_by_negative; [exact (round64_idem _ _ Hr) | exact Hd1].
Qed.

(** A capacity of 0 on the claim's example. *)
Lemma nonpositive_capacity_not_rejected_witness :
  let df := {| Date := ["2025-06-01"; "2025-06-02"; "2025-06-03"]%string;
               ETo := [Fin 5; Fin 5; Fin 5];
               Rain := [Fin 2; Fin 2; Fin 2] |} in
  trunc 0 = 0%Z /\
  exists b,
    calculate df (11 # 10) 1 0 = Ok b /\
    forall i x,
      nth_error (Pump_Hours b) i = Some x ->
      x = PosInf \/ x = NegInf \/ x = NaN.
Proof.
  intros df. split; [reflexivity |].
  destruct (proj1 (nonpositive_capacity_not_rejected df (11 # 10) 1 0) eq_refl)
    as (b & Hb & _ & Hinf & _).
  exists b. split; assumption.
Defined.

(** C9: the computation depends on the pump capacity only through
    int(pump_capacity), which truncates toward zero: two capacities with the
    same integer part give the same result; and every pump_hours entry is
    the volume of its day divided by the float of int(pump_capacity) * 60,
    not of pump_capacity * 60. *)
Theorem pump_hours_use_truncated_capacity
  (df : DataFrame) (kc fs pc1 pc2 : Q) :
  trunc pc1 = trunc pc2 ->
  calculate df kc fs pc1 = calculate df kc fs pc2 /\
  (forall b i v,
     calculate df kc fs pc1 = Ok b ->
     nth_error (total_liters b) i = Some v ->
     nth_error (Pump_Hours b) i = Some (fdiv v (of_int (trunc pc1 * 60)))) /\
  (forall b,
     calculate df kc fs pc1 = Ok b ->
     List.length (Pump_Hours b) = List.length (total_liters b)) /\
  (0 <= pc1 -> trunc pc1 = Qfloor pc1) /\
  (pc1 <= 0 -> trunc pc1 = Qceiling pc1).
Proof.
  intros H. split; [| split; [| split; [| split]]].
  - unfold calculate. now rewrite H.
  - intros b i v Hb Hv.
    destruct (calculate_divisor _ _ _ _ _ Hb) as (d & Hd & Hof).
    rewrite (calculate_Ok df kc fs pc1 (Fin d) Hd) in Hb. injection Hb as <-.
    cbn [Pump_Hours total_liters] in *.
    now rewrite (map_nth_error _ _ _ Hv), Hof.
  - intros b Hb.
    destruct (calculate_divisor _ _ _ _ _ Hb) as (d & Hd & Hof).
    rewrite (calculate_Ok df kc fs pc1 (Fin d) Hd) in Hb. injection Hb as <-.
    cbn [Pump_Hours total_liters]. apply length_map.
  - apply trunc_nonneg.
  - apply trunc_nonpos.
Qed.

(** At the sidebar's 200 liters per minute the pump hours of scenario C are
    the volume 14164.01 divided by 12000; and 200.9 liters per minute would
    give the same result, not the volume divided by 12054. *)
Lemma pump_hours_use_truncated_capacity_witness :
  let df := {| Date := ["2025-06-01"%string]; ETo := [Fin 5]; Rain := [Fin 2] |} in
  trunc 200 = trunc (2009 # 10) /\
  calculate df (11 # 10) 1 200 = calculate df (11 # 10) 1 (2009 # 10) /\
  exists b v,
    calculate df (11 # 10) 1 200 = Ok b /\
    nth_error (total_liters b) 0 = Some (Fin v) /\
    nth_error (Pump_Hours b) 0 = Some (fdiv (Fin v) (Fin 12000)) /\
    fdiv (Fin v) (Fin 12000) <> fdiv (Fin v) (Fin 12054).
Proof.
  intros df. split; [reflexivity |].
  destruct (pump_hours_use_truncated_capacity
              df (11 # 10) 1 200 (2009 # 10) eq_refl) as (Heq & Hat & _).
  split; [exact Heq |].
  assert (Hb : exists b, calculate df (11 # 10) 1 200 = Ok b /\
                         nth_error (total_liters b) 0
                         = Some (Fin (7786746845467771 # 549755813888))).
  { eexists. split; vm_compute; reflexivity. }
  destruct Hb as (b & Hb & Hv).
  exists b. eexists. split; [exact Hb |]. split; [exact Hv |].
  split.
  - rewrite (Hat b 0%nat _ Hb Hv). vm_compute. reflexivity.
  - vm_compute. intros E. discriminate E.
Defined.

(** *** Order *)

Lemma fle_not_nan (x y : pyfloat) :
  fle x y -> isna x = false /\ isna y = false.
Proof. destruct x, y; simpl; try contradiction; auto. Qed.











(* ------------------------------------------------------------------ *)
(** * Further properties of the two scripts *)

(** ** The weather client *)


(** The loop in front of the first attempt that is not a transient
    failure. *)
Lemma fetch_after_failures (net : nat -> net_reply) (k : nat) :
  (k < 3)%nat ->
  (forall j, (j < k)%nat ->
     exists r, attempt_once (net j) = Raise (RequestException r)) ->
  get_weather_data_safe net
  = (failed_attempts k ++ fst (retry_loop net (seq k (3 - k))),
     snd (retry_loop net (seq k (3 - k)))).
Proof.
  intros Hk Hprev. unfold get_weather_data_safe.
  destruct k as [| [| [| k]]]; [| | | lia].
  - change (seq 0 (3 - 0)) with (seq 0 3). simpl failed_attempts.
    now destruct (retry_loop net (seq 0 3)).
  - destruct (Hprev 0%nat) as [r0 H0]; [lia |].
    change (seq 0 3) with (0%nat :: seq 1 (3 - 1)).
    now rewrite (retry_loop_transient _ _ _ _ H0).
  - destruct (Hprev 0%nat) as [r0 H0]; [lia |].
    destruct (Hprev 1%nat) as [r1 H1]; [lia |].
    change (seq 0 3) with (0%nat :: 1%nat :: seq 2 (3 - 2)).
    rewrite (retry_loop_transient _ _ _ _ H0).
    now rewrite (retry_loop_transient _ _ _ _ H1).
Qed.


Lemma seq_cons_lt (k : nat) :
  (k < 3)%nat -> seq k (3 - k) = k :: seq (S k) (3 - S k).
Proof. intros H. destruct k as [| [| [| k]]]; [reflexivity .. | lia]. Qed.



(** X2: the first attempt that succeeds ends the fetch.  When the attempts
    before attempt [k] fail with request exceptions and attempt [k]
    succeeds, the fetch returns the frame of attempt [k] after [k + 1]
    requests and [2^k - 1] seconds of sleep, whatever later attempts would
    have answered. *)
Theorem fetch_stops_at_first_success
  (net : nat -> net_reply) (k : nat) (df : DataFrame) :
  (k < 3)%nat ->
  (forall j, (j < k)%nat ->
     exists r, attempt_once (net j) = Raise (RequestException r)) ->
  attempt_once (net k) = Ok df ->
  get_weather_data_safe net = (failed_attempts k ++ [HttpGet k], Ok df) /\
  requests_made (fst (get_weather_data_safe net)) = S k /\
  total_sleep (fst (get_weather_data_safe net)) = (2 ^ Z.of_nat k - 1)%Z.
Proof.
  intros Hk Hprev Hdf.
  assert (Hrun : get_weather_data_safe net
                 = (failed_attempts k ++ [HttpGet k], Ok df)).
  { rewrite (fetch_after_failures net k Hk Hprev), (seq_cons_lt k Hk).
    now rewrite (retry_loop_ok _ _ _ _ Hdf). }
  rewrite Hrun. split; [reflexivity |].
  destruct k as [| [| [| k]]]; [split; reflexivity .. | lia].
Qed.

(** An answer at the first attempt: one request, no sleep. *)
Lemma fetch_stops_at_first_success_witness :
  let good := Response 200
    (Json (Some {| j_time := Some [Parseable "2025-06-01"];
                   j_et0_fao_evapotranspiration := Some [Some 5];
                   j_precipitation_sum := Some [Some 2] |})) in
  let net := fun n : nat =>
    match n with 0%nat => good | _ => GetRaises ConnectionError end in
  get_weather_data_safe net
  = ([HttpGet 0],
     Ok {| Date := ["2025-06-01"%string]; ETo := [Fin 5]; Rain := [Fin 2] |}) /\
  total_sleep (fst (get_weather_data_safe net)) = 0%Z.
Proof.
  intros good net.
  assert (H0 : attempt_once (net 0%nat)
               = Ok {| Date := ["2025-06-01"%string];
                       ETo := [Fin 5]; Rain := [Fin 2] |})
    by (vm_compute; reflexivity).
  destruct (fetch_stops_at_first_success net 0 _ (Nat.lt_0_succ 2)
              (fun j Hj => match Nat.nlt_0_r j Hj with end) H0)
    as (Hrun & _ & Hsleep).
  split; [exact Hrun | exact Hsleep].
Defined.

(** X15: a malformed answer ends the fetch at once.  A JSON body under a
    non-error status that has not the expected shape (a missing key, arrays
    of different lengths, a date that cannot be parsed) makes the fetch
    fail with a KeyError or a ValueError at the attempt that receives it:
    nothing is slept and no attempt is made after it. *)
Theorem malformed_response_not_retried
  (net : nat -> net_reply) (k : nat) (code : Z) (data : option daily_json) :
  (k < 3)%nat ->
  (forall j, (j < k)%nat ->
     exists e, attempt_once (net j) = Raise (RequestException e)) ->
  net k = Response code (Json data) ->
  (code < 400 \/ 600 <= code)%Z ->
  Spec.expected_shape data = false ->
  exists e,
    ((exists key, e = KeyError key) \/ (exists msg, e = ValueError msg)) /\
    build_frame data = Raise e /\
    get_weather_data_safe net = (failed_attempts k ++ [HttpGet k], Raise e) /\
    requests_made (fst (get_weather_data_safe net)) = S k /\
    sleeps (fst (get_weather_data_safe net))
    = map (fun n => 2 ^ Z.of_nat n)%Z (seq 0 k).
Proof.
  intros Hk Hprev Hnet Hcode Hshape.
  apply build_frame_shape in Hshape. destruct Hshape as [e He].
  exists e. split; [exact (build_frame_errors data e He) |].
  split; [exact He |].
  assert (Hat : attempt_once (net k) = Raise e).
  { rewrite Hnet, attempt_once_good_status by exact Hcode. exact He. }
  pose proof (build_frame_raises _ _ He) as Hfatal.
  assert (Hrun : get_weather_data_safe net
                 = (failed_attempts k ++ [HttpGet k], Raise e)).
  { rewrite (fetch_after_failures net k Hk Hprev), (seq_cons_lt k Hk).
    now rewrite (retry_loop_fatal _ _ _ _ Hat Hfatal). }
  rewrite Hrun. split; [reflexivity |].
  destruct k as [| [| [| k]]]; [split; reflexivity .. | lia].
Qed.

(** A body without the [daily] key, received at the first attempt, and a
    date that cannot be parsed, received after a timeout. *)
Lemma malformed_response_not_retried_witness :
  get_weather_data_safe (fun _ => Response 200 (Json None))
  = ([HttpGet 0], Raise (KeyError "daily")) /\
  (let bad := Response 200
     (Json (Some {| j_time := Some [Unparseable "soon"];
                    j_et0_fao_evapotranspiration := Some [Some 5];
                    j_precipitation_sum := Some [Some 2] |})) in
   let net := fun n : nat =>
     match n with 0%nat => GetRaises ReadTimeout | _ => bad end in
   get_weather_data_safe net
   = ([HttpGet 0; Sleep 1; HttpGet 1],
      Raise (ValueError "Unknown datetime string format"))).
Proof.
  split.
  - destruct (malformed_response_not_retried
                (fun _ => Response 200 (Json None)) 0 200 None)
      as (e & _ & He & Hrun & _);
      [lia | intros j Hj; lia | reflexivity | lia | reflexivity |].
    rewrite Hrun. injection He as <-. reflexivity.
  - intros bad net.
    destruct (malformed_response_not_retried net 1 200
                (Some {| j_time := Some [Unparseable "soon"];
                         j_et0_fao_evapotranspiration := Some [Some 5];
                         j_precipitation_sum := Some [Some 2] |}))
      as (e & _ & He & Hrun & _);
      [lia | | reflexivity | lia | reflexivity |].
    + intros j Hj. exists ReadTimeout.
      destruct j as [| j]; [reflexivity | lia].
    + rewrite Hrun. injection He as <-. reflexivity.
Defined.

(** ** The audit *)

(** The block of the audit raises nothing. *)
Lemma try_except_ok (m : prog unit) : snd (try_except m) = Ok tt.
Proof. destruct m as [t [u | e]]; reflexivity. Qed.

(** X3: an error of the calculation never leaves the audit.  A run raises
    exactly when the fetch raises, and then with the same exception and
    with the trace of the fetch; every other run ends normally. *)
Theorem run_audit_raises_only_from_fetch
  (net : nat -> net_reply) (kc fs pc : Q) :
  (forall e,
     snd (run_audit net kc fs pc) = Raise e <->
     snd (get_weather_data_safe net) = Raise e) /\
  (forall e,
     snd (get_weather_data_safe net) = Raise e ->
     run_audit net kc fs pc = (fst (get_weather_data_safe net), Raise e)) /\
  (forall df,
     snd (get_weather_data_safe net) = Ok df ->
     snd (run_audit net kc fs pc) = Ok tt).
Proof.
  unfold run_audit.
  destruct (get_weather_data_safe net) as [t [df | e0]].
  - assert (Hok : snd (df0 <- (t, Ok df) ;;
                       if empty df0 then ret tt
                       else try_except (dashboard df0 kc fs pc) ;;;
                            emit Divider) = Ok tt).
    { unfold bind at 1. destruct (empty df); [reflexivity |].
      destruct (dashboard df kc fs pc) as [td [[] | e']]; reflexivity. }
    split; [| split].
    + intros e. rewrite Hok. simpl. split; discriminate.
    + intros e. simpl. discriminate.
    + intros df' _. exact Hok.
  - split; [| split].
    + intros e. simpl. split; intros [= <-]; reflexivity.
    + intros e. simpl. intros [= <-]. reflexivity.
    + intros df. simpl. discriminate.
Qed.

(** A missing [daily] key ends the run with the KeyError of the fetch. *)
Lemma run_audit_raises_only_from_fetch_witness :
  snd (get_weather_data_safe (fun _ => Response 200 (Json None)))
  = Raise (KeyError "daily") /\
  run_audit (fun _ => Response 200 (Json None)) (11 # 10) 1 200
  = ([HttpGet 0], Raise (KeyError "daily")).
Proof.
  split; [reflexivity |].
  exact (proj1 (proj2 (run_audit_raises_only_from_fetch
                         (fun _ => Response 200 (Json None)) (11 # 10) 1 200))
           (KeyError "daily") eq_refl).
Defined.

(** A run on a fetched frame with rows: the trace of the fetch, what the
    block of the audit shows, and the divider. *)
Lemma run_audit_on_frame
  (net : nat -> net_reply) (kc fs pc : Q) (df : DataFrame) :
  snd (get_weather_data_safe net) = Ok df -> empty df = false ->
  run_audit net kc fs pc
  = (fst (get_weather_data_safe net)
     ++ fst (try_except (dashboard df kc fs pc)) ++ [Divider], Ok tt).
Proof.
  intros Hdf Ee. unfold run_audit.
  destruct (get_weather_data_safe net) as [t r]. simpl in Hdf. subst r.
  unfold bind at 1. rewrite Ee.
  destruct (dashboard df kc fs pc) as [td [[] | e]]; reflexivity.
Qed.

(** X4: a fetched frame without a reference day.  With no row at all the
    run shows nothing after the fetch, not even a message; with one or two
    rows the only thing shown is a calculation error, followed by the
    divider: the IndexError of [df.iloc[2]], or, when the integer divisor
    is beyond the range of the floats, the OverflowError of the division,
    which comes first. *)
Theorem short_frame_has_no_reference_day
  (net : nat -> net_reply) (kc fs pc : Q) (df : DataFrame) :
  snd (get_weather_data_safe net) = Ok df ->
  (List.length (Date df) < 3)%nat ->
  run_audit net kc fs pc
  = (fst (get_weather_data_safe net)
     ++ match Date df with
        | [] => []
        | _ :: _ =>
            [StErrorCalc
               match float_of_int (trunc pc * 60) with
               | Ok _ =>
                   IndexError "single positional indexer is out-of-bounds"
               | Raise e => e
               end;
             Divider]
        end,
     Ok tt).
Proof.
  intros Hdf Hlen.
  destruct (Date df) as [| d rest] eqn:Ed.
  - unfold run_audit.
    destruct (get_weather_data_safe net) as [t r]. simpl in Hdf. subst r.
    simpl. unfold empty. rewrite Ed. reflexivity.
  - assert (Ee : empty df = false) by (unfold empty; now rewrite Ed).
    rewrite (run_audit_on_frame net kc fs pc df Hdf Ee).
    rewrite dashboard_runs.
    destruct (float_of_int (trunc pc * 60)) as [x | e] eqn:Ef.
    + rewrite (calculate_Ok df kc fs pc x Ef). cbv zeta.
      assert (Hi : forall b, iloc df b 2 = out_of_bounds).
      { intros b. unfold iloc. rewrite Ed.
        destruct rest as [| d1 [| d2 rest]]; [reflexivity | reflexivity |].
        simpl in Hlen. lia. }
      rewrite Hi. reflexivity.
    + rewrite (calculate_Raise df kc fs pc e Ef). reflexivity.
Qed.

(** An answer with two days only. *)
Lemma short_frame_has_no_reference_day_witness :
  let two := Response 200
    (Json (Some {| j_time := Some [Parseable "2025-06-01";
                                   Parseable "2025-06-02"];
                   j_et0_fao_evapotranspiration := Some [Some 5; Some 5];
                   j_precipitation_sum := Some [Some 2; Some 2] |})) in
  run_audit (fun _ => two) (11 # 10) 1 200
  = ([HttpGet 0;
      StErrorCalc (IndexError "single positional indexer is out-of-bounds");
      Divider], Ok tt).
Proof.
  intros two.
  assert (Hdf : snd (get_weather_data_safe (fun _ => two))
                = Ok {| Date := ["2025-06-01"; "2025-06-02"]%string;
                        ETo := [Fin 5; Fin 5]; Rain := [Fin 2; Fin 2] |})
    by (vm_compute; reflexivity).
  rewrite (short_frame_has_no_reference_day (fun _ => two) (11 # 10) 1 200 _
             Hdf (Nat.lt_succ_diag_r 2)).
  vm_compute. reflexivity.
Defined.



(** ** The report script *)

Lemma clip_lower_missing_or_nonneg (x : pyfloat) :
  missing_or_nonneg (clip_lower 0 x).
Proof.
  destruct (isna x) eqn:E.
  - left. now destruct x.
  - right. now apply clip_lower_nonneg.
Qed.

(** X10: "No negative numbers".  Whatever the two columns hold, numbers,
    gaps or infinities, no entry of the irrigation need of the report is a
    negative number or minus infinity: each is missing or at least zero. *)
Theorem report_need_never_negative (kc : Q) (ETo Rain : Series) :
  Forall missing_or_nonneg (Engine.Irrigation_Needed kc ETo Rain).
Proof.
  unfold Engine.Irrigation_Needed, clip. rewrite Forall_map.
  apply Forall_forall. intros x _. apply clip_lower_missing_or_nonneg.
Qed.

(** X11: the report script fills no gap.  On a day of its float columns
    where evapotranspiration and rain are each a number or missing, the
    irrigation need is missing exactly when one of the two is missing, and
    the crop need exactly when the evapotranspiration is. *)
Theorem report_keeps_gaps
  (kc : Q) (ETo Rain : Series) (i : nat) (x y : pyfloat) :
  nth_error ETo i = Some x -> nth_error Rain i = Some y ->
  missing_or (fun _ => True) x -> missing_or (fun _ => True) y ->
  exists c z,
    nth_error (Engine.Crop_Need kc ETo) i = Some c /\
    nth_error (Engine.Irrigation_Needed kc ETo Rain) i = Some z /\
    (c = NaN <-> x = NaN) /\
    (z = NaN <-> x = NaN \/ y = NaN).
Proof.
  intros Hx Hy Mx My.
  assert (Hc : nth_error (Engine.Crop_Need kc ETo) i = Some (fmul x (Fin kc))).
  { unfold Engine.Crop_Need, mul_scalar. now rewrite (map_nth_error _ _ _ Hx). }
  exists (fmul x (Fin kc)), (clip_lower 0 (fsub (fmul x (Fin kc)) y)).
  split; [exact Hc |]. split.
  - unfold Engine.Irrigation_Needed, clip.
    now rewrite (map_nth_error _ _ _ (nth_error_sub _ _ _ _ _ Hc Hy)).
  - destruct Mx as [-> | (a & -> & _)]; destruct My as [-> | (b & -> & _)].
    + split; split; intros H; auto.
    + split; split; intros H; auto.
    + cbn [fmul]. pose proof (round64_not_nan (a * kc)) as N.
      split; split; intros H; auto; try discriminate H.
      * rewrite H in N. discriminate N.
      * destruct (round64 (a * kc)); reflexivity.
    + cbn [fmul].
      pose proof (round64_not_nan (a * kc)) as N.
      assert (Z : isna (clip_lower 0 (fsub (round64 (a * kc)) (Fin b))) = false).
      { apply nonneg_not_nan. exact (proj2 (clip_lower_fsub (a * kc) b)). }
      split; split; intros H; try discriminate H.
      * rewrite H in N. discriminate N.
      * rewrite H in Z. discriminate Z.
      * destruct H as [H | H]; discriminate H.
Qed.

(** A day without an evapotranspiration value, in the report and in the
    cleaned frame of the dashboard. *)
Lemma report_keeps_gaps_witness :
  nth_error (Engine.Irrigation_Needed Engine.kc_value [Fin 5; NaN] [Fin 2; Fin 2]) 1
  = Some NaN /\
  clean_eto [Some 5; None] = [Fin 5; Fin 5].
Proof.
  split; [| vm_compute; reflexivity].
  destruct (report_keeps_gaps Engine.kc_value [Fin 5; NaN] [Fin 2; Fin 2] 1
              NaN (Fin 2) eq_refl eq_refl)
    as (c & z & _ & Hz & _ & Hiff).
  - now left.
  - right. exists 2. split; [reflexivity | exact I].
  - rewrite Hz. f_equal. apply Hiff. now left.
Defined.

(** ** The crop selector *)

Lemma dict_get_In {V} (d : Sidebar.dict V) (key : string) (v : V) :
  Sidebar.dict_get d key = Ok v -> In (key, v) d.
Proof.
  induction d as [| [k w] d IH]; simpl; [discriminate |].
  destruct (String.eqb key k) eqn:E.
  - apply String.eqb_eq in E. subst k. intros [= ->]. now left.
  - intros H. right. now apply IH.
Qed.

Lemma dict_get_raises {V} (d : Sidebar.dict V) (key : string) (e : exn) :
  Sidebar.dict_get d key = Raise e -> e = KeyError key.
Proof.
  induction d as [| [k w] d IH]; simpl.
  - now intros [= <-].
  - destruct (String.eqb key k); [discriminate | exact IH].
Qed.

Lemma dict_get_misses {V} (d : Sidebar.dict V) (key : string) (e : exn) (v : V) :
  Sidebar.dict_get d key = Raise e -> In (key, v) d -> False.
Proof.
  induction d as [| [k w] d IH]; simpl; [intros _ [] |].
  destruct (String.eqb key k) eqn:E; [discriminate |].
  intros H [[= -> ->] | Hin]; [| now apply IH].
  rewrite String.eqb_refl in E. discriminate.
Qed.

(** A key of the list of keys is in the object and has a value. *)
Lemma key_has_value {V} (d : Sidebar.dict V) (i : nat) (key : string) :
  nth_error (Sidebar.keys d) i = Some key ->
  Sidebar.contains d key = true /\ exists v, Sidebar.dict_get d key = Ok v.
Proof.
  unfold Sidebar.contains.
  revert i. induction d as [| [k w] d IH]; intros [| i]; simpl;
    try discriminate.
  - intros [= ->]. rewrite String.eqb_refl. split; [reflexivity |]. now exists w.
  - intros H. destruct (IH i H) as [Hc [v Hv]].
    destruct (String.eqb key k); simpl.
    + split; [reflexivity |]. now exists w.
    + split; [exact Hc |]. now exists v.
Qed.

Lemma stage_box (pick : nat) :
  (pick < 3)%nat ->
  exists label key,
    Sidebar.selectbox (Sidebar.keys Sidebar.stage_options) pick = Some label /\
    Sidebar.dict_get Sidebar.stage_options label = Ok key /\
    In (label, key) Sidebar.stage_options /\
    (key = "init" \/ key = "mid" \/ key = "end")%string.
Proof.
  intros H. destruct pick as [| [| [| pick]]]; [| | | lia];
    eexists; eexists;
    (split; [reflexivity |]); (split; [reflexivity |]); split; simpl; auto.
Qed.


(** X12: without a crop table the audit uses Kc = 1.  When
    'fao_crops.json' is absent, cannot be opened, cannot be parsed or holds
    an empty object, the selector shows the warning, names the crop
    "Standard Crop" and sets Kc to 1.0 whatever is picked; and with that Kc
    the crop need of every day whose evapotranspiration is a float is that
    evapotranspiration. *)
Theorem missing_crop_table_defaults
  (f : Sidebar.crop_file) (pick_category pick_crop pick_stage : nat) :
  (forall entry db, f <> Sidebar.Parsed (entry :: db)) ->
  Sidebar.crop_config (Sidebar.load_crop_db f) pick_category pick_crop pick_stage
  = ([Sidebar.DbNotFoundWarning],
     Ok {| Sidebar.crop_name := Some "Standard Crop"%string;
           Sidebar.kc := 1 |}) /\
  forall (df : DataFrame) (fs pc : Q) (b : Balance) (i : nat) (e : Q),
    calculate df (Sidebar.kc Sidebar.default_choice) fs pc = Ok b ->
    nth_error (ETo df) i = Some (Fin e) ->
    round64 e = Fin e ->
    nth_error (Crop_Water_Need b) i = Some (Fin e).
Proof.
  intros Hf. split.
  - destruct f as [| | | [| entry db]]; try reflexivity.
    now destruct (Hf entry db).
  - intros df fs pc b i e Hb He Hfloat.
    destruct (calculate_divisor _ _ _ _ _ Hb) as (d & Hd & _).
    rewrite (calculate_Ok df _ fs pc (Fin d) Hd) in Hb. injection Hb as <-.
    cbn [Crop_Water_Need]. unfold mul_scalar.
    rewrite (map_nth_error _ _ _ He).
    assert (E1 : py_float 1 = Fin 1) by (vm_compute; reflexivity).
    change (py_float (Sidebar.kc Sidebar.default_choice)) with (py_float 1).
    rewrite E1. cbn [fmul]. rewrite (round64_comp (e * 1) e) by ring.
    rewrite Hfloat. reflexivity.
Qed.

(** No file on disk. *)
Lemma missing_crop_table_defaults_witness :
  Sidebar.crop_config (Sidebar.load_crop_db Sidebar.NoFile) 0 0 1
  = ([Sidebar.DbNotFoundWarning], Ok Sidebar.default_choice).
Proof.
  refine (proj1 (missing_crop_table_defaults Sidebar.NoFile 0 0 1 _)).
  intros entry db. discriminate.
Defined.

(** X13: what the crop selector can do with a table.  With a table that is
    not empty, a category picked among its categories and a stage among the
    three stages, the selector either returns the Kc stored in the table
    under the picked category, a crop of that category and the stage key
    ("init", "mid" or "end") of the picked label, and shows it; or it ends
    with a KeyError, for [None] when there is no crop at the picked
    position, or for the stage key when the crop has no Kc for that stage.
    The lookup of the category never fails. *)
Theorem crop_selector_outcomes
  (db : Sidebar.crop_table) (pick_category pick_crop pick_stage : nat) :
  (pick_category < List.length db)%nat ->
  (pick_stage < 3)%nat ->
  exists category crops label stage_key,
    In (category, crops) db /\
    In (label, stage_key) Sidebar.stage_options /\
    (stage_key = "init" \/ stage_key = "mid" \/ stage_key = "end")%string /\
    ((exists crop stages k,
        In (crop, stages) crops /\ In (stage_key, k) stages /\
        Sidebar.crop_config db pick_category pick_crop pick_stage
        = ([Sidebar.KcInfo k (Some label)],
           Ok {| Sidebar.crop_name := Some crop; Sidebar.kc := k |})) \/
     (nth_error (Sidebar.keys crops) pick_crop = None /\
      Sidebar.crop_config db pick_category pick_crop pick_stage
      = ([], Raise (KeyError "None"))) \/
     (exists crop stages,
        In (crop, stages) crops /\
        (forall k, ~ In (stage_key, k) stages) /\
        Sidebar.crop_config db pick_category pick_crop pick_stage
        = ([], Raise (KeyError stage_key)))).
Proof.
  intros Hcat Hstage.
  destruct (nth_error (Sidebar.keys db) pick_category) as [category |] eqn:Ec.
  2: { apply nth_error_None in Ec. unfold Sidebar.keys in Ec.
       rewrite length_map in Ec. lia. }
  destruct (key_has_value db _ _ Ec) as [Hin [crops Hcrops]].
  destruct (stage_box pick_stage Hstage)
    as (label & stage_key & Hlabel & Hkey & Hopt & Hkeys).
  exists category, crops, label, stage_key.
  split; [now apply dict_get_In |]. split; [exact Hopt |].
  split; [exact Hkeys |].
  assert (Hrun : Sidebar.crop_config db pick_category pick_crop pick_stage
                 = match
                     rbind (Sidebar.dict_get_opt crops
                              (nth_error (Sidebar.keys crops) pick_crop))
                       (fun stages =>
                          rbind (Sidebar.dict_get stages stage_key)
                            (fun k =>
                               Ok {| Sidebar.crop_name :=
                                       nth_error (Sidebar.keys crops) pick_crop;
                                     Sidebar.kc := k |}))
                   with
                   | Ok choice =>
                       ([Sidebar.KcInfo (Sidebar.kc choice) (Some label)],
                        Ok choice)
                   | Raise e => ([], Raise e)
                   end).
  { unfold Sidebar.crop_config.
    destruct db as [| entry db]; [simpl in Hcat; lia |].
    unfold Sidebar.selectbox in Hlabel |- *. cbv zeta.
    rewrite Ec, Hin, Hlabel, Hcrops.
    unfold rbind at 1. cbv beta iota.
    unfold Sidebar.dict_get_opt at 1. cbv beta iota. rewrite Hkey.
    reflexivity. }
  destruct (nth_error (Sidebar.keys crops) pick_crop) as [crop |] eqn:Ek.
  2: { right. left. split; [reflexivity | exact Hrun]. }
  destruct (key_has_value crops _ _ Ek) as [_ [stages Hstages]].
  unfold Sidebar.dict_get_opt in Hrun. rewrite Hstages in Hrun.
  unfold rbind at 1 in Hrun. cbv beta iota in Hrun.
  destruct (Sidebar.dict_get stages stage_key) as [k | e] eqn:Es.
  - left. exists crop, stages, k.
    split; [now apply dict_get_In |]. split; [now apply dict_get_In |].
    exact Hrun.
  - right. right. exists crop, stages.
    split; [now apply dict_get_In |].
    split; [intros k Hk; apply dict_get_misses with (1 := Es) (2 := Hk) |].
    rewrite (dict_get_raises _ _ _ Es) in Hrun. exact Hrun.
Qed.

(** A table with one category and one crop; the stage box left at
    mid-season. *)
Lemma crop_selector_outcomes_witness :
  let maize := [("init", 3 # 10); ("mid", 12 # 10); ("end", 6 # 10)]%string in
  let db := [("Cereals", [("Maize", maize)])]%string in
  (0 < List.length db)%nat /\ (Sidebar.default_stage < 3)%nat /\
  Sidebar.crop_config db 0 0 Sidebar.default_stage
  = ([Sidebar.KcInfo (12 # 10) (Some "Mid-Season (Flowering/Fruiting)"%string)],
     Ok {| Sidebar.crop_name := Some "Maize"%string; Sidebar.kc := 12 # 10 |}) /\
  exists category crops label stage_key,
    In (category, crops) db /\
    In (label, stage_key) Sidebar.stage_options.
Proof.
  intros maize db.
  assert (H1 : (0 < List.length db)%nat) by apply Nat.lt_0_succ.
  assert (H2 : (Sidebar.default_stage < 3)%nat) by (apply le_S, le_n).
  split; [exact H1 |]. split; [exact H2 |]. split; [reflexivity |].
  destruct (crop_selector_outcomes db 0 0 Sidebar.default_stage H1 H2)
    as (category & crops & label & stage_key & Hc & Hs & _).
  exists category, crops, label, stage_key. split; assumption.
Defined.

(** ** Negative pump times *)

(** X14: a negative pump time is shown with mismatched parts.  The hours
    are cut toward zero, so they are the ceiling of the pump time, while
    the minutes are counted up from the floor and are never negative: they
    are the floor of a float between 0 and 60, and 60 itself is shown for
    a pump time just below zero (-1.18 hours is shown as -1h 49m, and
    -3.37e-17 hours as 0h 60m). *)
Theorem negative_runtime_split (q : Q) :
  q <= 0 ->
  exists p,
    pump_runtime (Fin q) = Ok (Qceiling q, Qfloor p) /\
    0 <= p /\ p <= 60 /\
    (0 <= Qfloor p <= 60)%Z /\ (Qceiling q <= 0)%Z.
Proof.
  intros Hq.
  destruct (pump_runtime_Fin q) as (p & Hrun & Lp & Up & Hm).
  exists p. rewrite (trunc_nonpos q Hq) in Hrun.
  split; [exact Hrun |]. split; [exact Lp |]. split; [exact Up |].
  split; [exact Hm |].
  rewrite <- (Qceiling_Z 0). now apply Qceiling_resp_le.
Qed.

(** -1.18 hours and -3.37e-17 hours. *)
Lemma negative_runtime_split_witness :
  (pump_runtime (Fin (- (5314247560297185 # 4503599627370496)))
   = Ok (-1, 49)%Z /\
   exists p, 0 <= p /\ p <= 60 /\ Qfloor p = 49%Z) /\
  (pump_runtime
     (Fin (- (2734068814572245 # 81129638414606681695789005144064)))
   = Ok (0, 60)%Z /\
   exists p, 0 <= p /\ p <= 60 /\ Qfloor p = 60%Z).
Proof.
  split.
  - assert (E : pump_runtime (Fin (- (5314247560297185 # 4503599627370496)))
                = Ok (-1, 49)%Z) by (vm_compute; reflexivity).
    split; [exact E |].
    destruct (negative_runtime_split
                (- (5314247560297185 # 4503599627370496)))
      as (p & Hrun & Lp & Up & _); [discriminate |].
    exists p. split; [exact Lp |]. split; [exact Up |].
    rewrite E in Hrun.
    exact (eq_sym (f_equal (fun r : result (Z * Z) =>
                              match r with
                              | Ok (_, m) => m
                              | Raise _ => 0%Z
                              end) Hrun)).
  - assert (E : pump_runtime
                  (Fin (- (2734068814572245
                           # 81129638414606681695789005144064)))
                = Ok (0, 60)%Z) by (vm_compute; reflexivity).
    split; [exact E |].
    destruct (negative_runtime_split
                (- (2734068814572245 # 81129638414606681695789005144064)))
      as (p & Hrun & Lp & Up & _); [discriminate |].
    exists p. split; [exact Lp |]. split; [exact Up |].
    rewrite E in Hrun.
    exact (eq_sym (f_equal (fun r : result (Z * Z) =>
                              match r with
                              | Ok (_, m) => m
                              | Raise _ => 0%Z
                              end) Hrun)).
Defined.
